(** * Blog summarizer: the route handler and the richer client

    A shallow embedding of the two JavaScript sources of the repository:

    - [src/app/page.js], whose second document is the server route
      [POST /api/summarize] (fetch the page, strip the markup, ask the
      completion service for a summary and for its Urdu translation);
    - the richer client component [BlogSummarizer] (URL validation, the
      structured error taxonomy, retry with exponential backoff, the error
      classifier of [handleSummarize], [copyToClipboard], [resetForm]).

    JavaScript strings are sequences of UTF-16 code units, so they are
    modelled as lists of code units; the regular expressions of the sources
    carry no [u] flag and therefore work on code units as well. *)

From Stdlib Require Import List NArith ZArith Bool String Ascii Lia.
From Equations Require Import Equations.
Import ListNotations.

Set Implicit Arguments.
Set Warnings "-register-all".

(* ===================================================================== *)
(** * Definitions *)
(* ===================================================================== *)

(** ** JavaScript strings and values *)

Module JS.

(** A string is its sequence of UTF-16 code units. *)
Definition jsstring := list N.

(** A literal of the source, all of whose characters are ASCII. *)
Fixpoint lit (s : string) : jsstring :=
  match s with
  | EmptyString => []
  | String c r => N_of_ascii c :: lit r
  end.

Definition LT : N := 60.   (* < *)
Definition GT : N := 62.   (* > *)
Definition SP : N := 32.   (* space *)
Definition NL : N := 10.   (* \n *)

(** The class [\s] of a regular expression, which is also the set that
    [String.prototype.trim] strips: WhiteSpace and LineTerminator of
    ECMA-262 (TAB, LF, VT, FF, CR, SP, NBSP, the Unicode space separators,
    LS, PS and the byte order mark). *)
Definition is_ws (c : N) : bool :=
  (((9 <=? c) && (c <=? 13)) || (c =? 32) || (c =? 160) || (c =? 5760)
   || ((8192 <=? c) && (c <=? 8202)) || (c =? 8232) || (c =? 8233)
   || (c =? 8239) || (c =? 8287) || (c =? 12288) || (c =? 65279))%N.

(** [s.replace(/<[^>]*>?/gm, ' ')].  The scan goes left to right.  Outside
    a match a code unit other than [<] is copied; a [<] starts a match,
    for which one space is emitted.  Inside a match [[^>]*] swallows every
    code unit that is not [>], and the optional [>] ends the match; the
    end of the string ends it as well, since [>?] may match nothing.
    [in_tag] tells whether the scan is inside a match. *)
Fixpoint replace_tags (in_tag : bool) (s : jsstring) : jsstring :=
  match s with
  | [] => []
  | c :: r =>
      if in_tag then
        if c =? GT then replace_tags false r else replace_tags true r
      else if c =? LT then SP :: replace_tags true r
      else c :: replace_tags false r
  end%N.

(** The rest of the string after a match that has consumed its [<]:
    [[^>]*] runs up to the next [>], which [>?] takes with it. *)
Fixpoint after_tag (s : jsstring) : jsstring :=
  match s with
  | [] => []
  | c :: r => if (c =? GT)%N then r else after_tag r
  end.

(** [s.replace(/\s+/g, ' ')]: every maximal run of white space becomes one
    space.  [in_run] tells whether the previous code unit was white space
    (and the space for this run has been emitted). *)
Fixpoint replace_ws (in_run : bool) (s : jsstring) : jsstring :=
  match s with
  | [] => []
  | c :: r =>
      if is_ws c then
        if in_run then replace_ws true r else SP :: replace_ws true r
      else c :: replace_ws false r
  end.

(** [s.trim()] *)
Fixpoint trimStart (s : jsstring) : jsstring :=
  match s with
  | [] => []
  | c :: r => if is_ws c then trimStart r else s
  end.

Definition trimEnd (s : jsstring) : jsstring := rev (trimStart (rev s)).

Definition trim (s : jsstring) : jsstring := trimEnd (trimStart s).

(** [s.slice(0, n)] for a non-negative [n]. *)
Definition slice0 (n : N) (s : jsstring) : jsstring := firstn (N.to_nat n) s.

Fixpoint eqb (a b : jsstring) : bool :=
  match a, b with
  | [], [] => true
  | x :: a', y :: b' => (x =? y)%N && eqb a' b'
  | _, _ => false
  end.

Fixpoint startsWith (p s : jsstring) : bool :=
  match p, s with
  | [], _ => true
  | x :: p', y :: s' => (x =? y)%N && startsWith p' s'
  | _ :: _, [] => false
  end.

(** [s.includes(p)], which is also [/p/.test(s)] for a pattern [p] made of
    literal characters only. *)
Fixpoint includes (p s : jsstring) : bool :=
  startsWith p s ||
  match s with
  | [] => false
  | _ :: r => includes p r
  end.

(** Values that travel as JSON or sit in object fields.  Numbers are only
    carried around, tested for truthiness and printed, and every number the
    sources inspect is an integer (an HTTP status), so they are integers
    here. *)
Inductive json : Type :=
| JUndefined
| JNull
| JBool (b : bool)
| JNum (n : Z)
| JStr (s : jsstring)
| JArr (l : list json)
| JObj (fields : list (string * json)).

(** ToBoolean *)
Definition truthy (v : json) : bool :=
  match v with
  | JUndefined | JNull => false
  | JBool b => b
  | JNum n => negb (n =? 0)%Z
  | JStr s => match s with [] => false | _ => true end
  | JArr _ | JObj _ => true
  end.

Fixpoint assoc (k : string) (fields : list (string * json)) : option json :=
  match fields with
  | [] => None
  | (k', v) :: r => if String.eqb k k' then Some v else assoc k r
  end.

(** Outcome of a computation that may throw. *)
Inductive result (E A : Type) : Type :=
| Ok (a : A)
| Throw (e : E).
Arguments Ok {E A} a.
Arguments Throw {E A} e.

(** [let x = r; k x], where evaluating [r] may throw. *)
Definition bind_result {E A B} (r : result E A) (k : A -> result E B) : result E B :=
  match r with
  | Ok a => k a
  | Throw e => Throw e
  end.

(** An asynchronous computation: it acts on the world outside the program
    (state [W]) and settles with a value or with what it throws. *)
Definition M (W E A : Type) : Type := W -> result E A * W.

Definition ret {W E A} (a : A) : M W E A := fun w => (Ok a, w).

Definition lift {W E A} (r : result E A) : M W E A := fun w => (r, w).

(** The same computation, its failures seen through [f]. *)
Definition rethrow {W E E' A} (f : E -> E') (m : M W E A) : M W E' A :=
  fun w =>
    match m w with
    | (Ok a, w') => (Ok a, w')
    | (Throw e, w') => (Throw (f e), w')
    end.

(** [const x = await m; k x] *)
Definition bind {W E A B} (m : M W E A) (k : A -> M W E B) : M W E B :=
  fun w =>
    match m w with
    | (Ok a, w') => k a w'
    | (Throw e, w') => (Throw e, w')
    end.

End JS.

Import JS.

Declare Scope js_scope.
Delimit Scope js_scope with js.
Notation "x <- m ;; k" := (bind m (fun x => k))
  (at level 61, m at next level, right associativity) : js_scope.
Notation "x <-? r ;; k" := (bind_result r (fun x => k))
  (at level 61, r at next level, right associativity) : js_scope.

(** ** The route handler [POST /api/summarize] *)

Module Route.

Record NextResponse := { status : Z; body : json }.

(** [NextResponse.json(data)] and [NextResponse.json(data, { status })] *)
Definition NextResponse_json (data : json) (st : option Z) : NextResponse :=
  {| status := match st with Some n => n | None => 200%Z end; body := data |}.

(** The text extraction of the handler. *)
Definition textContent (html : jsstring) : jsstring :=
  trim (replace_ws false (replace_tags false html)).

Definition promptSummary (text : jsstring) : jsstring :=
  lit "Summarize this blog in 5 clear sentences:" ++ [NL; NL] ++ slice0 12000%N text.

Definition promptTranslate (summary : jsstring) : jsstring :=
  lit "Translate the following summary into formal Urdu:" ++ [NL; NL] ++ summary.

Definition error_message : jsstring :=
  lit "An error occurred while processing your request.".

Definition user_agent : list (string * jsstring) :=
  [("User-Agent"%string, lit "Mozilla/5.0")].

Section Handler.
(** The collaborators of the handler are outside the repository: the
    request, the network and the completion service.  [W] is the state
    of that outside world, [exn] the values they throw. *)
Variables (W exn fetch_response generation : Type).

Variable req_json : M W exn json.                   (* await req.json() *)
Variable fetch : json -> list (string * jsstring) -> M W exn fetch_response.
Variable response_text : fetch_response -> M W exn jsstring.   (* await response.text() *)
Variable generateContent : jsstring -> M W exn generation.     (* await model.generateContent(p) *)
Variable generation_text : generation -> result exn jsstring.  (* r.response.text() *)
Variable type_error : exn.       (* thrown when a null body is destructured *)

(** [const { url } = v] *)
Definition destructure_url (v : json) : result exn json :=
  match v with
  | JObj fields =>
      match assoc "url" fields with Some u => Ok u | None => Ok JUndefined end
  | JNull | JUndefined => Throw type_error
  | _ => Ok JUndefined
  end.

(** The body of the [try] block. *)
Definition POST_try : M W exn NextResponse :=
 (data <- req_json ;;
  url <- lift (destructure_url data) ;;
  response <- fetch url user_agent ;;
  html <- response_text response ;;
  let text := textContent html in
  summaryResult <- generateContent (promptSummary text) ;;
  summary <- lift (generation_text summaryResult) ;;
  translationResult <- generateContent (promptTranslate summary) ;;
  urduTranslation <- lift (generation_text translationResult) ;;
  ret (NextResponse_json
         (JObj [("summary"%string, JStr summary);
                ("urduTranslation"%string, JStr urduTranslation)])
         None))%js.

(** The handler: the [try] block, and the [catch] that turns whatever
    was thrown into the fixed 500 response. *)
Definition POST (w : W) : NextResponse * W :=
  match POST_try w with
  | (Ok r, w') => (r, w')
  | (Throw _, w') =>
      (NextResponse_json (JObj [("error"%string, JStr error_message)])
                         (Some 500%Z), w')
  end.

(** Every step of the [try] block goes through: the request carries a
    body, the page is fetched and read, and both completion calls
    return a text. *)
Definition succeeds (w : W) (summary urduTranslation : jsstring) (w' : W) : Prop :=
  exists data url response html summaryResult translationResult w1 w2 w3 w4,
    req_json w = (Ok data, w1)
    /\ destructure_url data = Ok url
    /\ fetch url user_agent w1 = (Ok response, w2)
    /\ response_text response w2 = (Ok html, w3)
    /\ generateContent (promptSummary (textContent html)) w3 = (Ok summaryResult, w4)
    /\ generation_text summaryResult = Ok summary
    /\ generateContent (promptTranslate summary) w4 = (Ok translationResult, w')
    /\ generation_text translationResult = Ok urduTranslation.

End Handler.

(** The field [k] of a response body. *)
Definition field (k : string) (r : NextResponse) : option json :=
  match body r with
  | JObj fields => assoc k fields
  | _ => None
  end.

(** A completion service for examples: it answers a prompt with the
    prompt between brackets, and from its [quota]-th call on it throws.
    The world counts the calls made. *)
Definition sample_page : jsstring :=
  lit "<html><body><p>Hello World</p></body></html>".

Definition sample_request : M nat jsstring json :=
  ret (JObj [("url"%string, JStr (lit "https://medium.com/@x/y"))]).

Definition sample_fetch (url : json) (headers : list (string * jsstring)) :
  M nat jsstring jsstring :=
  match url with
  | JStr _ => ret sample_page
  | _ => lift (Throw (lit "Failed to parse URL"))
  end.

Definition sample_generate (quota : nat) (prompt : jsstring) : M nat jsstring jsstring :=
  fun calls =>
    if (calls <? quota)%nat then (Ok (lit "[" ++ prompt ++ lit "]"), S calls)
    else (Throw (lit "429 Too Many Requests"), S calls).

Definition sample_POST (quota : nat) : nat -> NextResponse * nat :=
  POST sample_request sample_fetch (fun r => ret r) (sample_generate quota)
       (fun g => Ok g) (lit "TypeError").

End Route.

(** ** The richer client component [BlogSummarizer] *)

Module Client.

(** *** Structured errors *)

Inductive ErrorType : Type :=
| NETWORK | VALIDATION | SERVER | TIMEOUT
| RATE_LIMIT | INVALID_URL | CONTENT_NOT_FOUND | UNKNOWN.

(** The table [ERROR_TYPES]: the string each kind stands for. *)
Definition ERROR_TYPES (t : ErrorType) : jsstring :=
  match t with
  | NETWORK => lit "network"
  | VALIDATION => lit "validation"
  | SERVER => lit "server"
  | TIMEOUT => lit "timeout"
  | RATE_LIMIT => lit "rate_limit"
  | INVALID_URL => lit "invalid_url"
  | CONTENT_NOT_FOUND => lit "content_not_found"
  | UNKNOWN => lit "unknown"
  end.

(** The object built by [createError].  [message] is a JSON value because
    [handleApiError] may put [data.error] there, whatever it is. *)
Record StructuredError : Type := {
  type : ErrorType;
  message : json;
  details : json;
  recoverable : bool;
  timestamp : jsstring
}.

(** [createError(type, message, details, recoverable)]; every call of the
    source passes the four arguments.  [now] is what
    [new Date().toISOString()] returns at the call. *)
Definition createError (t : ErrorType) (msg details : json) (rec : bool)
           (now : jsstring) : StructuredError :=
  {| type := t; message := msg; details := details;
     recoverable := rec; timestamp := now |}.

(** An error object of the platform ([TypeError], [SyntaxError], the
    [AbortError] of an aborted fetch, ...): its [name] and [message]. *)
Record NativeError : Type := {
  error_name : jsstring;
  error_message : jsstring
}.

(** What a [catch] of the component can receive, and what the [error]
    state cell can hold: an object built by [createError], or a native
    error. *)
Inductive ErrorValue : Type :=
| Structured (e : StructuredError)
| Native (e : NativeError).

(** Property reads [err.name], [err.type], [err.message],
    [err.recoverable]: a property the object lacks reads as undefined. *)
Definition err_name (err : ErrorValue) : json :=
  match err with Native n => JStr (error_name n) | Structured _ => JUndefined end.

Definition err_type (err : ErrorValue) : json :=
  match err with
  | Structured e => JStr (ERROR_TYPES (type e))
  | Native _ => JUndefined
  end.

Definition err_message (err : ErrorValue) : json :=
  match err with Native n => JStr (error_message n) | Structured e => message e end.

Definition err_recoverable (err : ErrorValue) : json :=
  match err with
  | Structured e => JBool (recoverable e)
  | Native _ => JUndefined
  end.

(** [v === 'literal'] *)
Definition strict_eq_lit (v : json) (s : jsstring) : bool :=
  match v with JStr x => JS.eqb x s | _ => false end.

(** [v.includes(p)] where [v] is a string. *)
Definition json_includes (v : json) (p : jsstring) : bool :=
  match v with JStr x => includes p x | _ => false end.

(** [a || b] on values *)
Definition js_or (a b : json) : json := if truthy a then a else b.

(** Decimal digits of a number, as the template literal prints an integer. *)
Fixpoint digits (fuel : nat) (n : N) (acc : jsstring) : jsstring :=
  match fuel with
  | O => acc
  | S f =>
      let d := (48 + n mod 10)%N in
      if (n <? 10)%N then d :: acc else digits f (n / 10)%N (d :: acc)
  end.

Definition Number_toString (z : Z) : jsstring :=
  let n := Z.abs_N z in
  let ds := digits (S (N.to_nat (N.log2 n))) n [] in
  if (z <? 0)%Z then 45%N :: ds else ds.

(** *** The platform *)

(** A response of [fetch]: its status and what [response.json()] yields
    (the parsed body, or the error of a body that does not parse). *)
Record Response : Type := {
  status : Z;
  json_body : result NativeError json
}.

(** [response.ok] *)
Definition ok (r : Response) : bool := ((200 <=? status r) && (status r <=? 299))%Z.

(** The object [new URL(url)] returns; only [protocol] is read. *)
Record URLObject : Type := { protocol : jsstring }.

(** What the component uses of the browser.  [W] is the state of the
    world outside the component (network, server, clock, clipboard).  The
    thirty-second abort timer of [handleSummarize] acts through [fetch]
    alone: an aborted request is a [fetch] that rejects with an
    [AbortError]. *)
Record Browser (W : Type) : Type := {
  (** [fetch('/api/summarize', { method: 'POST', body: { url } })] *)
  fetch : jsstring -> M W NativeError Response;
  (** [new Date().toISOString()] *)
  toISOString_now : W -> jsstring;
  (** the time a timer set by [setTimeout] waits *)
  elapse : Z -> W -> W;
  (** [new URL(url)], which throws a [TypeError] with some message *)
  new_URL : jsstring -> result jsstring URLObject;
  (** the message of the [TypeError] of a property read on [null] *)
  null_read_message : string -> jsstring;
  (** [navigator.clipboard.writeText(text)] *)
  writeText : jsstring -> M W NativeError unit
}.

(** *** Component state *)

Inductive Tab : Type := english | urdu.

(** The state cells of the component (the particles of the animated
    background, which nothing else reads, are left out). *)
Record State : Type := {
  url : jsstring;
  loading : bool;
  error : option ErrorValue;
  summary : json;
  copied : bool;
  activeTab : Tab;
  retryCount : Z;
  isOnline : bool
}.

(** The values given to [useState]; [online] is [navigator.onLine]. *)
Definition initial (online : bool) : State :=
  {| url := []; loading := false; error := None; summary := JNull;
     copied := false; activeTab := english; retryCount := 0;
     isOnline := online |}.

Definition setUrl (v : jsstring) (s : State) : State :=
  {| url := v; loading := loading s; error := error s; summary := summary s;
     copied := copied s; activeTab := activeTab s;
     retryCount := retryCount s; isOnline := isOnline s |}.

Definition setLoading (v : bool) (s : State) : State :=
  {| url := url s; loading := v; error := error s; summary := summary s;
     copied := copied s; activeTab := activeTab s;
     retryCount := retryCount s; isOnline := isOnline s |}.

Definition setError (v : option ErrorValue) (s : State) : State :=
  {| url := url s; loading := loading s; error := v; summary := summary s;
     copied := copied s; activeTab := activeTab s;
     retryCount := retryCount s; isOnline := isOnline s |}.

Definition setSummary (v : json) (s : State) : State :=
  {| url := url s; loading := loading s; error := error s; summary := v;
     copied := copied s; activeTab := activeTab s;
     retryCount := retryCount s; isOnline := isOnline s |}.

Definition setCopied (v : bool) (s : State) : State :=
  {| url := url s; loading := loading s; error := error s; summary := summary s;
     copied := v; activeTab := activeTab s;
     retryCount := retryCount s; isOnline := isOnline s |}.

Definition setActiveTab (v : Tab) (s : State) : State :=
  {| url := url s; loading := loading s; error := error s; summary := summary s;
     copied := copied s; activeTab := v;
     retryCount := retryCount s; isOnline := isOnline s |}.

(** [setRetryCount(f)], the functional form; [setRetryCount(0)] is
    [setRetryCount (fun _ => 0)]. *)
Definition setRetryCount (f : Z -> Z) (s : State) : State :=
  {| url := url s; loading := loading s; error := error s; summary := summary s;
     copied := copied s; activeTab := activeTab s;
     retryCount := f (retryCount s); isOnline := isOnline s |}.

(** *** Retry with exponential backoff *)

(** What [retryWithBackoff] does that can be observed from outside: it
    invokes [fn] (attempt number [retryCount]) and it sets timers. *)
Inductive event : Type :=
| Invoke (retryCount : nat)
| SetTimeout (ms : Z).

Section Retry.
Variables (W : Type) (B : Browser W).
Variables (A E : Type).
(** [fn()] returns a promise, which resolves or rejects. *)
Variable fn : M W E A.
Variables (maxRetries : nat) (delay : Z).

Definition log (evs : list event) (x : result E A * list event * W) :
  result E A * list event * W :=
  let '(r, tr, w) := x in (r, evs ++ tr, w).

(** The inner function [attempt]: the promise of [retryWithBackoff]
    resolves with the value of the first successful invocation, and is
    rejected with the error of invocation [retryCount >= maxRetries];
    any other failure sets a timer of [delay * Math.pow(2, retryCount)]
    milliseconds, after which [attempt(retryCount + 1)] runs. *)
Equations? attempt (retryCount : nat) (w : W) : result E A * list event * W
  by wf (maxRetries - retryCount) lt :=
  attempt retryCount w with fn w => {
    | (Ok a, w') => (Ok a, [Invoke retryCount], w');
    | (Throw error, w') with le_lt_dec maxRetries retryCount => {
        | left _ => (Throw error, [Invoke retryCount], w');
        | right _ =>
            log [Invoke retryCount; SetTimeout (delay * 2 ^ Z.of_nat retryCount)]
                (attempt (S retryCount)
                         (elapse B (delay * 2 ^ Z.of_nat retryCount) w')) } }.
Proof. lia. Qed.

Definition retryWithBackoff (w : W) : result E A * list event * W :=
  attempt 0 w.

End Retry.

(** *** The component's functions *)

Section Component.
Variables (W : Type) (B : Browser W).

Definition blogPatterns : list jsstring :=
  [lit "medium.com"; lit "wordpress.com"; lit "blogspot.com";
   lit "substack.com"; lit "dev.to"; lit "hashnode.com"; lit ".blog";
   lit "/blog/"; lit "/post/"; lit "/article/"].

(** [validateUrl(url)]; [null] is [None]. *)
Definition validateUrl (url now : jsstring) : option StructuredError :=
  match trim url with
  | [] =>
      Some (createError VALIDATION (JStr (lit "Please enter a URL")) JNull true now)
  | _ :: _ =>
      match new_URL B url with
      | Ok urlObject =>
          if negb (existsb (JS.eqb (protocol urlObject)) [lit "http:"; lit "https:"])
          then Some (createError INVALID_URL
                       (JStr (lit "URL must use HTTP or HTTPS protocol")) JNull true now)
          else
            let isLikelyBlog :=
              existsb (fun pattern => includes pattern url) blogPatterns in
            if negb isLikelyBlog
            then Some (createError VALIDATION
                         (JStr (lit "This doesn't appear to be a blog URL. Please verify the link."))
                         (JObj [("url"%string, JStr url)]) true now)
            else None
      | Throw err_msg =>
          Some (createError INVALID_URL
                  (JStr (lit "Invalid URL format. Please check your URL."))
                  (JObj [("originalError"%string, JStr err_msg)]) true now)
      end
  end.

(** The property read [v.k]; reading a property of [null] or
    [undefined] throws a [TypeError]. *)
Definition get (v : json) (k : string) : result ErrorValue json :=
  match v with
  | JObj fields =>
      Ok (match assoc k fields with Some x => x | None => JUndefined end)
  | JNull | JUndefined =>
      Throw (Native {| error_name := lit "TypeError";
                       error_message := null_read_message B k |})
  | _ => Ok JUndefined
  end.

(** [handleApiError(response, data)] *)
Definition handleApiError (response : Response) (data : json) (now : jsstring) :
  result ErrorValue StructuredError :=
  let status := status response in
  let only_status := JObj [("status"%string, JNum status)] in
  (if status =? 400 then
     e <-? get data "error" ;;
     Ok (createError VALIDATION
           (js_or e (JStr (lit "Invalid request. Please check your URL.")))
           only_status true now)
   else if status =? 404 then
     Ok (createError CONTENT_NOT_FOUND
           (JStr (lit "Blog post not found or unable to access content."))
           only_status true now)
   else if status =? 429 then
     ra <-? get data "retryAfter" ;;
     Ok (createError RATE_LIMIT
           (JStr (lit "Too many requests. Please wait a moment and try again."))
           (JObj [("status"%string, JNum status); ("retryAfter"%string, ra)])
           true now)
   else if status =? 500 then
     Ok (createError SERVER (JStr (lit "Server error. Please try again later."))
           only_status true now)
   else if status =? 503 then
     Ok (createError SERVER
           (JStr (lit "Service temporarily unavailable. Please try again later."))
           only_status true now)
   else
     e <-? get data "error" ;;
     Ok (createError UNKNOWN
           (js_or e (JStr (lit "Unexpected error (" ++ Number_toString status ++ lit ")")))
           only_status true now))%Z%js.

Definition invalid_response (data : json) (now : jsstring) : ErrorValue :=
  Structured (createError SERVER
                (JStr (lit "Invalid response from server. Please try again."))
                (JObj [("data"%string, data)]) true now).

(** The closure [apiCall] of [handleSummarize], for the [url] the
    handler was called with. *)
Definition apiCall (url : jsstring) : M W ErrorValue json :=
  (response <- rethrow Native (fetch B (trim url)) ;;
   data <- rethrow Native (lift (json_body response)) ;;
   fun w =>
     if negb (ok response) then
       match handleApiError response data (toISOString_now B w) with
       | Ok e => (Throw (Structured e), w)
       | Throw x => (Throw x, w)
       end
     else
       let invalid := Throw (invalid_response data (toISOString_now B w)) in
       ((s <-? get data "summary" ;;
         if negb (truthy s) then invalid else
         t <-? get s "title" ;;
         if negb (truthy t) then invalid else
         e <-? get s "englishSummary" ;;
         if negb (truthy e) then invalid else
         Ok data), w))%js.

(** The [catch] block of [handleSummarize]: the error put in the state.
    [includes] is reached only when [err.name] is the string
    [TypeError], that is on a native error, whose message is a string. *)
Definition handleSummarize_catch (err : ErrorValue) (now : jsstring) : ErrorValue :=
  if strict_eq_lit (err_name err) (lit "AbortError") then
    Structured (createError TIMEOUT
      (JStr (lit "Request timed out. The blog might be too large or the server is busy."))
      JNull true now)
  else if truthy (err_type err) then
    err
  else if strict_eq_lit (err_name err) (lit "TypeError")
          && json_includes (err_message err) (lit "fetch") then
    Structured (createError NETWORK
      (JStr (lit "Network error. Please check your connection and try again."))
      (JObj [("originalError"%string, err_message err)]) true now)
  else
    Structured (createError UNKNOWN
      (JStr (lit "An unexpected error occurred. Please try again."))
      (JObj [("originalError"%string, err_message err)]) true now).

Definition on_catch (err : ErrorValue) (now : jsstring) (s : State) : State :=
  setRetryCount (fun prev => prev + 1)%Z
    (setError (Some (handleSummarize_catch err now)) s).

(** [handleSummarize()], run to completion from state [s]; the events
    are those of its call of [retryWithBackoff]. *)
Definition handleSummarize (s : State) (w : W) : State * list event * W :=
  if negb (isOnline s) then
    (setError (Some (Structured (createError NETWORK
       (JStr (lit "No internet connection. Please check your network and try again."))
       JNull true (toISOString_now B w)))) s, [], w)
  else
    match validateUrl (url s) (toISOString_now B w) with
    | Some validationError => (setError (Some (Structured validationError)) s, [], w)
    | None =>
        let s1 := setRetryCount (fun _ => 0%Z)
                    (setSummary JNull (setError None (setLoading true s))) in
        let '(r, tr, w1) := retryWithBackoff B (apiCall (url s)) 3 1000 w in
        let s2 :=
          match r with
          | Ok result =>
              match get result "summary" with
              | Ok v => setRetryCount (fun _ => 0%Z) (setSummary v s1)
              | Throw err => on_catch err (toISOString_now B w1) s1
              end
          | Throw err => on_catch err (toISOString_now B w1) s1
          end in
        (setLoading false s2, tr, w1)
    end.

(** [copyToClipboard(text)]; the timer that clears [copied] two seconds
    later is not part of the call. *)
Definition copyToClipboard (text : jsstring) (s : State) (w : W) : State * W :=
  match writeText B text w with
  | (Ok _, w') => (setCopied true s, w')
  | (Throw err, w') =>
      (setError (Some (Structured (createError UNKNOWN
         (JStr (lit "Failed to copy text to clipboard"))
         (JObj [("originalError"%string, JStr (error_message err))])
         false (toISOString_now B w')))) s, w')
  end.

(** [resetForm()] *)
Definition resetForm (s : State) : State :=
  setRetryCount (fun _ => 0%Z)
    (setActiveTab english (setError None (setSummary JNull (setUrl [] s)))).

(** [retryLastAction()] *)
Definition retryLastAction (s : State) (w : W) : State * list event * W :=
  match error s with
  | Some e => if truthy (err_recoverable e) then handleSummarize s w else (s, [], w)
  | None => (s, [], w)
  end.

End Component.

(** *** A scripted world for examples *)

(** The server's answers to the coming requests are listed in advance;
    once the list is used up the network is down.  [clock] counts the
    milliseconds spent waiting on timers. *)
Record World : Type := {
  script : list (result NativeError Response);
  clock : Z;
  clipboard_allowed : bool
}.

Definition failed_to_fetch : NativeError :=
  {| error_name := lit "TypeError"; error_message := lit "Failed to fetch" |}.

Definition scripted_fetch (url : jsstring) : M World NativeError Response :=
  fun w =>
    match script w with
    | [] => (Throw failed_to_fetch, w)
    | r :: rest =>
        (r, {| script := rest; clock := clock w;
               clipboard_allowed := clipboard_allowed w |})
    end.

(** A stand-in for the URL parser that reads the scheme off the front. *)
Definition scheme_URL (url : jsstring) : result jsstring URLObject :=
  if startsWith (lit "https://") url then Ok {| protocol := lit "https:" |}
  else if startsWith (lit "http://") url then Ok {| protocol := lit "http:" |}
  else if startsWith (lit "ftp://") url then Ok {| protocol := lit "ftp:" |}
  else Throw (lit "Invalid URL").

Definition offline_fetch (url : jsstring) : M World NativeError Response :=
  fun w => (Throw failed_to_fetch, w).

(** The server gives the same answer to every request. *)
Definition constant_fetch (r : Response) (url : jsstring) : M World NativeError Response :=
  fun w => (Ok r, w).

Definition browser (f : jsstring -> M World NativeError Response) : Browser World := {|
  fetch := f;
  toISOString_now := fun _ => lit "2025-07-01T12:00:00.000Z";
  elapse := fun ms w =>
    {| script := script w; clock := clock w + ms;
       clipboard_allowed := clipboard_allowed w |};
  new_URL := scheme_URL;
  null_read_message := fun k =>
    lit "Cannot read properties of null (reading '" ++ lit k ++ lit "')";
  writeText := fun _ w =>
    if clipboard_allowed w then (Ok tt, w)
    else (Throw {| error_name := lit "NotAllowedError";
                   error_message := lit "Write permission denied." |}, w)
|}.

Definition scripted : Browser World := browser scripted_fetch.

(** A server that answers every request with 429 and a [retryAfter] of a
    minute, and a network that is down. *)
Definition rate_limited : Browser World :=
  browser (constant_fetch
             {| status := 429;
                json_body := Ok (JObj [("error"%string, JStr (lit "Slow down"));
                                       ("retryAfter"%string, JNum 60)]) |}).

Definition offline : Browser World := browser offline_fetch.

Definition world (answers : list (result NativeError Response)) : World :=
  {| script := answers; clock := 0; clipboard_allowed := false |}.

Definition answer (st : Z) (data : json) : result NativeError Response :=
  Ok {| status := st; json_body := Ok data |}.

Definition good_summary : json :=
  JObj [("summary"%string,
         JObj [("title"%string, JStr (lit "A post"));
               ("englishSummary"%string, JStr (lit "Five sentences."));
               ("urduSummary"%string, JStr (lit "Urdu"))])].

Definition typed (u : jsstring) : State := setUrl u (initial true).

End Client.

(** ** Reference notions the statements compare the code with *)

Module Reference.

(** The code units of a page that lie outside every [<...>] sequence
    ([in_tag]: the scan is inside one). *)
Fixpoint outside_tags (in_tag : bool) (s : jsstring) : jsstring :=
  match s with
  | [] => []
  | c :: r =>
      if in_tag then
        if (c =? GT)%N then outside_tags false r else outside_tags true r
      else if (c =? LT)%N then outside_tags true r
      else c :: outside_tags false r
  end.

Definition visible (s : jsstring) : jsstring :=
  filter (fun c => negb (is_ws c)) s.

(** No two white-space code units are neighbours. *)
Definition no_ws_pair (s : jsstring) : Prop :=
  forall l1 a b l2, s = l1 ++ a :: b :: l2 -> is_ws a && is_ws b = false.

(** Normalised text: the only white space is the single space, never
    doubled, never at either end. *)
Definition normalized (t : jsstring) : Prop :=
  (forall c, In c t -> is_ws c = true -> c = SP)
  /\ no_ws_pair t
  /\ (forall c r, t = c :: r -> is_ws c = false)
  /\ (forall r c, t = r ++ [c] -> is_ws c = false).

(** The pieces of a string between its white-space code units (two
    neighbouring white-space code units have an empty piece between them),
    and its words: the pieces that are not empty. *)
Fixpoint fields (s : jsstring) : list jsstring :=
  match s with
  | [] => [[]]
  | c :: r =>
      if is_ws c then [] :: fields r
      else match fields r with
           | w :: ws => (c :: w) :: ws
           | [] => [[c]]
           end
  end.

Definition words (s : jsstring) : list jsstring :=
  filter (fun w => match w with [] => false | _ => true end) (fields s).

(** The words put one after the other, one space between neighbours. *)
Definition unwords (ws : list jsstring) : jsstring :=
  match ws with
  | [] => []
  | w :: r => w ++ flat_map (fun x => SP :: x) r
  end.

(** The events of a run in which every attempt from number [from] on
    fails: each attempt but the last is followed by its timer. *)
Definition backoff (maxRetries : nat) (delay : Z) (from : nat) : list Client.event :=
  flat_map (fun i => [Client.Invoke i; Client.SetTimeout (delay * 2 ^ Z.of_nat i)])
           (seq from (maxRetries - from))
  ++ [Client.Invoke maxRetries].

(** The delay of the timer that attempt number [k] waited for. *)
Fixpoint timer_before (k : nat) (tr : list Client.event) : option Z :=
  match tr with
  | [] => None
  | Client.SetTimeout ms :: r =>
      match r with
      | Client.Invoke i :: _ => if (i =? k)%nat then Some ms else timer_before k r
      | _ => timer_before k r
      end
  | Client.Invoke _ :: r => timer_before k r
  end.

Definition invocations (tr : list Client.event) : nat :=
  List.length (filter (fun ev => match ev with Client.Invoke _ => true | _ => false end) tr).

(** Two outcomes that differ at most in the value of the failure. *)
Definition same_kind {E1 E2 A : Type} (x : result E1 A) (y : result E2 A) : Prop :=
  match x, y with
  | Ok a, Ok b => a = b
  | Throw _, Throw _ => True
  | _, _ => False
  end.

(** Two invocations, and two runs of the wrapper, that differ at most in
    the values of the failures. *)
Definition same_call {W E1 E2 A : Type}
           (x : result E1 A * W) (y : result E2 A * W) : Prop :=
  same_kind (fst x) (fst y) /\ snd x = snd y.

Definition same_run {W E1 E2 A : Type}
           (x : result E1 A * list Client.event * W)
           (y : result E2 A * list Client.event * W) : Prop :=
  same_kind (fst (fst x)) (fst (fst y))
  /\ snd (fst x) = snd (fst y)
  /\ snd x = snd y.

Definition http_or_https (protocol : jsstring) : Prop :=
  protocol = lit "http:" \/ protocol = lit "https:".

(** [p] occurs in [s]. *)
Definition occurs (p s : jsstring) : Prop := exists l1 l2, s = l1 ++ p ++ l2.

(** One of the blog patterns occurs somewhere in the URL string. *)
Definition looks_like_blog (url : jsstring) : Prop :=
  exists p, In p Client.blogPatterns /\ occurs p url.

(** The three errors the [catch] block of [handleSummarize] builds. *)
Definition timeout_error (now : jsstring) : Client.StructuredError :=
  Client.createError Client.TIMEOUT
    (JStr (lit "Request timed out. The blog might be too large or the server is busy."))
    JNull true now.

Definition network_error (m now : jsstring) : Client.StructuredError :=
  Client.createError Client.NETWORK
    (JStr (lit "Network error. Please check your connection and try again."))
    (JObj [("originalError"%string, JStr m)]) true now.

Definition unknown_error (m now : jsstring) : Client.StructuredError :=
  Client.createError Client.UNKNOWN
    (JStr (lit "An unexpected error occurred. Please try again."))
    (JObj [("originalError"%string, JStr m)]) true now.

End Reference.

Import Reference.

(** ** The minimal client [Home] of [src/app/page.js] *)

Module Home.

(** The state cells of the component. *)
Record State : Type := {
  url : jsstring;
  summary : json;
  urduTranslation : json;
  loading : bool;
  error : jsstring
}.

(** The values given to [useState]. *)
Definition initial : State :=
  {| url := []; summary := JStr []; urduTranslation := JStr [];
     loading := false; error := [] |}.

Definition setUrl (v : jsstring) (s : State) : State :=
  {| url := v; summary := summary s; urduTranslation := urduTranslation s;
     loading := loading s; error := error s |}.

Definition setSummary (v : json) (s : State) : State :=
  {| url := url s; summary := v; urduTranslation := urduTranslation s;
     loading := loading s; error := error s |}.

Definition setUrduTranslation (v : json) (s : State) : State :=
  {| url := url s; summary := summary s; urduTranslation := v;
     loading := loading s; error := error s |}.

Definition setLoading (v : bool) (s : State) : State :=
  {| url := url s; summary := summary s; urduTranslation := urduTranslation s;
     loading := v; error := error s |}.

Definition setError (v : jsstring) (s : State) : State :=
  {| url := url s; summary := summary s; urduTranslation := urduTranslation s;
     loading := loading s; error := v |}.

Definition failed_message : jsstring :=
  lit "Failed to fetch summary. Check your URL and try again.".

Section Component.
Variables (W : Type) (B : Client.Browser W).

(** The property read [v.k] of the component: what is thrown is the
    platform's [TypeError]. *)
Definition read (v : json) (k : string) : result Client.NativeError json :=
  match v with
  | JObj fields =>
      Ok (match assoc k fields with Some x => x | None => JUndefined end)
  | JNull | JUndefined =>
      Throw {| Client.error_name := lit "TypeError";
               Client.error_message := Client.null_read_message B k |}
  | _ => Ok JUndefined
  end.

(** The [try] block of [handleSummarize]: the state it leaves, or what it
    throws together with the state as the setters called so far left it. *)
Definition handleSummarize_try (s : State) (w : W) :
  result (Client.NativeError * State) State * W :=
  match Client.fetch B (url s) w with
  | (Throw err, w') => (Throw (err, s), w')
  | (Ok response, w') =>
      if negb (Client.ok response) then
        (Throw ({| Client.error_name := lit "Error";
                   Client.error_message := failed_message |}, s), w')
      else
        match Client.json_body response with
        | Throw err => (Throw (err, s), w')
        | Ok data =>
            match read data "summary" with
            | Throw err => (Throw (err, s), w')
            | Ok sm =>
                let s1 := setSummary sm s in
                match read data "urduTranslation" with
                | Throw err => (Throw (err, s1), w')
                | Ok ur => (Ok (setUrduTranslation ur s1), w')
                end
            end
        end
  end.

(** [handleSummarize()], run to completion from state [s].  The request
    carries the URL as typed. *)
Definition handleSummarize (s : State) (w : W) : State * W :=
  if negb (truthy (JStr (url s))) then (s, w)
  else
    let s0 := setError [] (setUrduTranslation (JStr [])
                (setSummary (JStr []) (setLoading true s))) in
    match handleSummarize_try s0 w with
    | (Ok s1, w') => (setLoading false s1, w')
    | (Throw (err, s1), w') =>
        (setLoading false (setError (Client.error_message err) s1), w')
    end.

End Component.

End Home.

(** ** What the richer client renders, and its event handlers *)

Module View.

Import Client.

(** [error.details] *)
Definition err_details (err : ErrorValue) : json :=
  match err with
  | Structured e => details e
  | Native _ => JUndefined
  end.

(** [x && 'text'] inside an element: the text when [x] holds, nothing
    otherwise. *)
Definition when (c : bool) (text : jsstring) : jsstring :=
  if c then text else [].

(** The paragraph under the error message: it is rendered when
    [error.details] is truthy, with the hint of the error's kind. *)
Definition hint (err : ErrorValue) : option jsstring :=
  if truthy (err_details err) then
    Some (when (strict_eq_lit (err_type err) (ERROR_TYPES VALIDATION))
               (lit "Please check the URL format and try again.")
          ++ when (strict_eq_lit (err_type err) (ERROR_TYPES NETWORK))
               (lit "Check your internet connection and try again.")
          ++ when (strict_eq_lit (err_type err) (ERROR_TYPES RATE_LIMIT))
               (lit "Please wait a moment before making another request.")
          ++ when (strict_eq_lit (err_type err) (ERROR_TYPES TIMEOUT))
               (lit "The request took too long. Try again or use a different URL."))
  else None.

(** [retryCount > 0 && !error]: the "Retry attempt n/3" line is shown. *)
Definition retry_indicator (s : State) : bool :=
  (0 <? retryCount s)%Z && match error s with None => true | Some _ => false end.

Definition setIsOnline (v : bool) (s : State) : State :=
  {| url := url s; loading := loading s; error := error s; summary := summary s;
     copied := copied s; activeTab := activeTab s;
     retryCount := retryCount s; isOnline := v |}.

(** What can happen to the component: the user types, asks for a summary,
    resets, copies, picks a tab, asks again; the browser goes on or off
    line. *)
Inductive action : Type :=
| Typed (v : jsstring)
| Summarize
| Reset
| Copy (text : jsstring)
| PickTab (t : Tab)
| TryAgain
| WentOnline
| WentOffline.

Section Steps.
Variables (W : Type) (B : Browser W).

(** One action, run to completion. *)
Definition step (a : action) (sw : State * W) : State * W :=
  let (s, w) := sw in
  match a with
  | Typed v => (setUrl v s, w)
  | Summarize => let '(s', _, w') := handleSummarize B s w in (s', w')
  | Reset => (resetForm s, w)
  | Copy text => copyToClipboard B text s w
  | PickTab t => (setActiveTab t s, w)
  | TryAgain => let '(s', _, w') := retryLastAction B s w in (s', w')
  | WentOnline => (setIsOnline true s, w)
  | WentOffline => (setIsOnline false s, w)
  end.

Definition run (actions : list action) (sw : State * W) : State * W :=
  fold_left (fun acc a => step a acc) actions sw.

End Steps.

End View.

(** ** The clients wired to the route handler *)

Module Wiring.

Section Served.
Variables (W exn fetch_response generation : Type).
Variable page_fetch : json -> list (string * jsstring) -> M W exn fetch_response.
Variable response_text : fetch_response -> M W exn jsstring.
Variable generateContent : jsstring -> M W exn generation.
Variable generation_text : generation -> result exn jsstring.
Variable type_error : exn.

(** The handler run on a request whose body is [{ url }]. *)
Definition serve (url : jsstring) : W -> Route.NextResponse * W :=
  Route.POST (ret (JObj [("url"%string, JStr url)]))
             page_fetch response_text generateContent generation_text type_error.

(** A [fetch] of the client that reaches the handler: the response has the
    handler's status, and its body reads back as the handler's JSON. *)
Definition served_fetch (url : jsstring) : M W Client.NativeError Client.Response :=
  fun w =>
    let (r, w') := serve url w in
    (Ok {| Client.status := Route.status r;
           Client.json_body := Ok (Route.body r) |}, w').

(** A browser whose requests reach the handler. *)
Definition wired (B : Client.Browser W) : Client.Browser W :=
  {| Client.fetch := served_fetch;
     Client.toISOString_now := Client.toISOString_now B;
     Client.elapse := Client.elapse B;
     Client.new_URL := Client.new_URL B;
     Client.null_read_message := Client.null_read_message B;
     Client.writeText := Client.writeText B |}.

(** Every response the browser's [fetch] delivers is one the handler
    produced for that request; a request may as well be rejected (the
    thirty-second abort of [handleSummarize], a transport failure). *)
Definition answers_from_route (B : Client.Browser W) : Prop :=
  forall url w response w',
    Client.fetch B url w = (Ok response, w') ->
    exists w0,
      Client.status response = Route.status (fst (serve url w0))
      /\ Client.json_body response = Ok (Route.body (fst (serve url w0))).

End Served.

(** The scripted browser wired to a route whose page fetch gives the
    sample page and whose completion service answers a prompt with the
    prompt between brackets ([up]), or to a route whose page fetch fails
    ([down]). *)
Definition echo_route (up : bool) : Client.Browser Client.World :=
  wired (fun (url : json) (headers : list (string * jsstring)) =>
           if up then ret Route.sample_page
           else lift (Throw (lit "getaddrinfo ENOTFOUND")))
        (fun r => ret r)
        (fun prompt => ret (lit "[" ++ prompt ++ lit "]"))
        (fun g => Ok g)
        (lit "TypeError")
        Client.scripted.


Definition abort_error : Client.NativeError :=
  {| Client.error_name := lit "AbortError";
     Client.error_message := lit "The user aborted a request." |}.

(** The scripted browser in front of the echo route, where the handler
    takes [latency] ms to answer and the abort timer strikes 30000 ms after
    the start: a request that would end later is rejected at that instant
    with an [AbortError]. *)
Definition slow_fetch (latency : Z) (url : jsstring) :
  M Client.World Client.NativeError Client.Response :=
  fun w =>
    if (30000 <? Client.clock w + latency)%Z then
      (Throw abort_error,
       {| Client.script := Client.script w;
          Client.clock := Z.max (Client.clock w) 30000;
          Client.clipboard_allowed := Client.clipboard_allowed w |})
    else
      let (r, w') :=
        serve (fun (u : json) (headers : list (string * jsstring)) =>
                 ret (E := jsstring) Route.sample_page)
              (fun r => ret r)
              (fun prompt => ret (lit "[" ++ prompt ++ lit "]"))
              (fun g => Ok g)
              (lit "TypeError") url w in
      (Ok {| Client.status := Route.status r;
             Client.json_body := Ok (Route.body r) |},
       {| Client.script := Client.script w';
          Client.clock := Client.clock w' + latency;
          Client.clipboard_allowed := Client.clipboard_allowed w' |}).

Definition slow_route (latency : Z) : Client.Browser Client.World :=
  Client.browser (slow_fetch latency).

End Wiring.

(** A page whose text is longer than the prompt takes: 13,000 times the
    letter a inside a paragraph. *)
Definition long_text : jsstring := repeat 97%N (N.to_nat 13000).

Definition long_page : jsstring := lit "<p>" ++ long_text ++ lit "</p>".

Definition long_POST : nat -> Route.NextResponse * nat :=
  Route.POST Route.sample_request
             (fun (url : json) (headers : list (string * jsstring)) =>
                ret (E := jsstring) long_page)
             (fun r => ret r) (Route.sample_generate 2)
             (fun g => Ok g) (lit "TypeError").

(** The time spent waiting on the timers of a run. *)
Fixpoint total_wait (tr : list Client.event) : Z :=
  match tr with
  | [] => 0
  | Client.SetTimeout ms :: r => ms + total_wait r
  | Client.Invoke _ :: r => total_wait r
  end.

(** After any action the error cell and the retry counter agree. *)
Definition cells_agree (s : Client.State) : Prop :=
  (Client.retryCount s = 0%Z \/ Client.retryCount s = 1%Z)
  /\ (Client.error s = None -> Client.retryCount s = 0%Z).

(** A body [apiCall] accepts: [summary], [summary.title] and
    [summary.englishSummary] are truthy. *)
Definition accepted_body (data : json) : Prop :=
  exists fields sfields t e,
    data = JObj fields
    /\ assoc "summary" fields = Some (JObj sfields)
    /\ assoc "title" sfields = Some t /\ truthy t = true
    /\ assoc "englishSummary" sfields = Some e /\ truthy e = true.

(* ===================================================================== *)
(** * Theorems *)
(* ===================================================================== *)

Unset Implicit Arguments.

(** ** Text extraction *)

Section Extraction.

Lemma replace_tags_after_tag s :
  replace_tags true s = replace_tags false (after_tag s).
Proof.
  induction s as [|c r IH]; simpl; [reflexivity|].
  destruct (c =? GT)%N; [reflexivity | exact IH].
Qed.

(** The state machine is the regular expression: at a [<] one match is
    replaced by one space and the scan resumes after the match. *)
Lemma replace_tags_match r :
  replace_tags false (LT :: r) = SP :: replace_tags false (after_tag r).
Proof. simpl. now rewrite replace_tags_after_tag. Qed.

Lemma replace_tags_copy c r :
  c <> LT -> replace_tags false (c :: r) = c :: replace_tags false r.
Proof.
  intros H. simpl. destruct (N.eqb_spec c LT); [contradiction | reflexivity].
Qed.

Lemma replace_tags_no_LT b s : ~ In LT (replace_tags b s).
Proof.
  revert b; induction s as [|c r IH]; intros b; simpl; [tauto|].
  destruct b.
  - destruct (c =? GT)%N; apply IH.
  - destruct (N.eqb_spec c LT) as [->|Hc]; simpl.
    + intros [H|H]; [discriminate H | exact (IH _ H)].
    + intros [H|H]; [congruence | exact (IH _ H)].
Qed.

Lemma replace_ws_In b s c : In c (replace_ws b s) -> c = SP \/ In c s.
Proof.
  revert b; induction s as [|x r IH]; intros b; simpl; [tauto|].
  destruct (is_ws x).
  - destruct b; simpl.
    + intros H. destruct (IH _ H); auto.
    + intros [H|H]; [auto|]. destruct (IH _ H); auto.
  - simpl. intros [H|H]; [auto|]. destruct (IH _ H); auto.
Qed.

Lemma trimStart_suffix s : exists l, s = l ++ trimStart s.
Proof.
  induction s as [|c r [l Hl]]; simpl.
  - now exists [].
  - destruct (is_ws c).
    + exists (c :: l). simpl. now f_equal.
    + now exists [].
Qed.

Lemma trimEnd_prefix s : exists l, s = trimEnd s ++ l.
Proof.
  unfold trimEnd. destruct (trimStart_suffix (rev s)) as [l Hl].
  exists (rev l). rewrite <- rev_app_distr, <- Hl. now rewrite rev_involutive.
Qed.

Lemma trim_infix s : exists l1 l2, s = l1 ++ trim s ++ l2.
Proof.
  unfold trim. destruct (trimStart_suffix s) as [l1 H1].
  destruct (trimEnd_prefix (trimStart s)) as [l2 H2].
  exists l1, l2. now rewrite <- H2.
Qed.

Lemma trim_In s c : In c (trim s) -> In c s.
Proof.
  destruct (trim_infix s) as (l1 & l2 & H). intros Hc. rewrite H.
  apply in_or_app. right. apply in_or_app. now left.
Qed.

Lemma trimStart_head s c r : trimStart s = c :: r -> is_ws c = false.
Proof.
  induction s as [|x t IH]; simpl; [discriminate|].
  destruct (is_ws x) eqn:Hx; [exact IH|].
  intros H. injection H as -> _. exact Hx.
Qed.

Lemma trimEnd_last s r c : trimEnd s = r ++ [c] -> is_ws c = false.
Proof.
  unfold trimEnd. intros H.
  apply (f_equal (@rev N)) in H. rewrite rev_involutive, rev_app_distr in H.
  simpl in H. exact (trimStart_head _ _ _ H).
Qed.

Lemma trim_head s c r : trim s = c :: r -> is_ws c = false.
Proof.
  unfold trim. intros H.
  destruct (trimEnd_prefix (trimStart s)) as [l Hl].
  rewrite H in Hl. simpl in Hl. exact (trimStart_head _ _ _ Hl).
Qed.

Lemma is_ws_SP : is_ws SP = true.
Proof. reflexivity. Qed.

(** After the replacement every white-space code unit is the space of a
    run, and the next code unit, if any, is not white space. *)
Lemma replace_ws_shape b s :
  (forall c, In c (replace_ws b s) -> is_ws c = true -> c = SP)
  /\ no_ws_pair (replace_ws b s)
  /\ (b = true -> forall c r, replace_ws b s = c :: r -> is_ws c = false).
Proof.
  revert b; induction s as [|x t IH]; intros b.
  - simpl. repeat split.
    + intros c [].
    + intros l1 a c l2 H. destruct l1; discriminate H.
    + discriminate.
  - simpl. destruct (is_ws x) eqn:Hx.
    + destruct (IH true) as (IH1 & IH2 & IH3). destruct b.
      * repeat split; auto.
      * repeat split.
        -- intros c [<-|Hc] Hw; [reflexivity | now apply IH1].
        -- intros l1 a c l2 H. destruct l1 as [|y l1]; simpl in H.
           ++ injection H as <- H.
              rewrite (IH3 eq_refl c l2 H). apply andb_false_r.
           ++ injection H as _ H. exact (IH2 _ _ _ _ H).
        -- discriminate.
    + destruct (IH false) as (IH1 & IH2 & _). repeat split.
      * intros c [<-|Hc] Hw; [congruence | now apply IH1].
      * intros l1 a c l2 H. destruct l1 as [|y l1]; simpl in H.
        -- injection H as <- H. now rewrite Hx.
        -- injection H as _ H. exact (IH2 _ _ _ _ H).
      * intros _ c r H. injection H as <- _. exact Hx.
Qed.

Lemma no_ws_pair_infix l1 s l2 : no_ws_pair (l1 ++ s ++ l2) -> no_ws_pair s.
Proof.
  intros H m1 a b m2 ->. apply (H (l1 ++ m1) a b (m2 ++ l2)).
  now rewrite <- !app_assoc.
Qed.

Lemma visible_app a b : visible (a ++ b) = visible a ++ visible b.
Proof. apply filter_app. Qed.

Lemma visible_rev s : visible (rev s) = rev (visible s).
Proof.
  unfold visible. induction s as [|c r IH]; simpl; [reflexivity|].
  rewrite filter_app, IH. simpl. destruct (is_ws c); simpl.
  - apply app_nil_r.
  - reflexivity.
Qed.

Lemma visible_trimStart s : visible (trimStart s) = visible s.
Proof.
  induction s as [|c r IH]; [reflexivity|].
  cbn [trimStart]. destruct (is_ws c) eqn:Hc; [|reflexivity].
  rewrite IH. unfold visible. simpl. now rewrite Hc.
Qed.

Lemma visible_trim s : visible (trim s) = visible s.
Proof.
  unfold trim, trimEnd.
  now rewrite visible_rev, visible_trimStart, visible_rev, rev_involutive,
    visible_trimStart.
Qed.

Lemma visible_replace_ws b s : visible (replace_ws b s) = visible s.
Proof.
  revert b; induction s as [|c r IH]; intros b; simpl; [reflexivity|].
  destruct (is_ws c) eqn:Hc; simpl.
  - destruct b; simpl; apply IH.
  - rewrite Hc. simpl. now rewrite IH.
Qed.

Lemma visible_replace_tags b s :
  visible (replace_tags b s) = visible (outside_tags b s).
Proof.
  revert b; induction s as [|c r IH]; intros b; simpl; [reflexivity|].
  destruct b.
  - destruct (c =? GT)%N; apply IH.
  - destruct (c =? LT)%N; simpl.
    + apply IH.
    + now rewrite IH.
Qed.

Lemma trimStart_app a b :
  trimStart (a ++ b) = if forallb is_ws a then trimStart b else trimStart a ++ b.
Proof.
  induction a as [|c a IH]; simpl; [reflexivity|].
  destruct (is_ws c); simpl; [exact IH | reflexivity].
Qed.

Lemma trimEnd_nil : trimEnd [] = [].
Proof. reflexivity. Qed.

Lemma forallb_rev (f : N -> bool) l : forallb f (rev l) = forallb f l.
Proof.
  induction l as [|c l IH]; simpl; [reflexivity|].
  rewrite forallb_app, IH. simpl. rewrite andb_true_r. apply andb_comm.
Qed.

(** [trimEnd] read from the front. *)
Lemma trimEnd_cons c s :
  trimEnd (c :: s) = if forallb is_ws (c :: s) then [] else c :: trimEnd s.
Proof.
  unfold trimEnd. simpl rev. rewrite trimStart_app, forallb_rev.
  cbn [forallb trimStart].
  destruct (forallb is_ws s) eqn:Hs, (is_ws c) eqn:Hc; simpl;
    try (rewrite rev_app_distr; reflexivity).
  - reflexivity.
  - assert (H : trimStart (rev s) = []).
    { clear Hc. rewrite <- forallb_rev in Hs.
      induction (rev s) as [|x l IH]; simpl in *; [reflexivity|].
      destruct (is_ws x); [auto | discriminate]. }
    now rewrite H.
Qed.

Lemma trimStart_replace_ws b s :
  trimStart (replace_ws b s) = replace_ws false (trimStart s).
Proof.
  revert b; induction s as [|c r IH]; intros b; simpl; [reflexivity|].
  destruct (is_ws c) eqn:Hc.
  - destruct b; simpl; apply IH.
  - simpl. now rewrite Hc.
Qed.

Lemma fields_cons s : exists w ws, fields s = w :: ws.
Proof.
  induction s as [|c r (w & ws & H)]; simpl; [eauto|].
  destruct (is_ws c); [eauto|]. rewrite H. eauto.
Qed.

Lemma words_ws c r : is_ws c = true -> words (c :: r) = words r.
Proof. intros H. unfold words. simpl. now rewrite H. Qed.

Lemma words_start c r w ws :
  is_ws c = false -> fields r = w :: ws ->
  words (c :: r)
  = (c :: w) :: filter (fun w => match w with [] => false | _ => true end) ws.
Proof. intros H Hf. unfold words. simpl. now rewrite H, Hf. Qed.

(** The two scanning states of the white-space replacement, in terms of
    the pieces of the input. *)
Lemma replace_ws_fields s :
  (forall w ws, fields s = w :: ws ->
     trimEnd (replace_ws false s)
     = w ++ flat_map (fun x => SP :: x)
              (filter (fun w => match w with [] => false | _ => true end) ws))
  /\ (if forallb is_ws (replace_ws true s) then []
      else SP :: trimEnd (replace_ws true s))
     = flat_map (fun x => SP :: x) (words s).
Proof.
  induction s as [|c r [IHP IHQ]].
  - split; [|reflexivity]. intros w ws H. injection H as <- <-. reflexivity.
  - destruct (fields_cons r) as (w0 & ws0 & Hr).
    destruct (is_ws c) eqn:Hc.
    + split.
      * intros w ws H. simpl in H. rewrite Hc in H. injection H as <- <-.
        simpl replace_ws. rewrite Hc. rewrite trimEnd_cons.
        cbn [forallb]. rewrite is_ws_SP. cbn [andb app].
        exact IHQ.
      * simpl replace_ws. rewrite Hc, (words_ws c r Hc). exact IHQ.
    + split.
      * intros w ws H. simpl in H. rewrite Hc, Hr in H. injection H as <- <-.
        simpl replace_ws. rewrite Hc, trimEnd_cons.
        cbn [forallb]. rewrite Hc. cbn [andb].
        rewrite (IHP w0 ws0 Hr). reflexivity.
      * simpl replace_ws. rewrite Hc. cbn [forallb]. rewrite Hc. cbn [andb].
        rewrite trimEnd_cons. cbn [forallb]. rewrite Hc. cbn [andb].
        rewrite (words_start c r w0 ws0 Hc Hr), (IHP w0 ws0 Hr). reflexivity.
Qed.

Lemma words_trimStart s : words (trimStart s) = words s.
Proof.
  induction s as [|c r IH]; simpl; [reflexivity|].
  destruct (is_ws c) eqn:Hc; [|reflexivity].
  now rewrite IH, (words_ws c r Hc).
Qed.

(** Collapsing the white space and trimming leaves the words of the
    string, one space between neighbours. *)
Lemma trim_replace_ws s : trim (replace_ws false s) = unwords (words s).
Proof.
  unfold trim. rewrite trimStart_replace_ws, <- words_trimStart.
  destruct (trimStart s) as [|c r] eqn:Ht; [reflexivity|].
  pose proof (trimStart_head s c r Ht) as Hc.
  destruct (fields_cons (c :: r)) as (w & ws & Hf).
  rewrite (proj1 (replace_ws_fields (c :: r)) w ws Hf).
  unfold words. rewrite Hf. simpl in Hf. rewrite Hc in Hf.
  destruct (fields_cons r) as (w0 & ws0 & Hr). rewrite Hr in Hf.
  injection Hf as <- <-. reflexivity.
Qed.

(** C7.  For every fetched body the extracted text holds no [<] (every
    tag sequence is gone, each replaced in one global substitution); it is
    the words of what the substitution leaves, one space between
    neighbours, so every run of white space has become one space and the
    ends are trimmed; it keeps exactly the visible code units that stood
    outside the tags and is normalised; and the page
    [<html><body><p>Hello World</p></body></html>] yields [Hello World]. *)
Theorem textContent_extracts (html : jsstring) :
  Route.textContent html = trim (replace_ws false (replace_tags false html))
  /\ Route.textContent html = unwords (words (replace_tags false html))
  /\ ~ In LT (Route.textContent html)
  /\ visible (Route.textContent html) = visible (outside_tags false html)
  /\ normalized (Route.textContent html)
  /\ Route.textContent (lit "<html><body><p>Hello World</p></body></html>")
     = lit "Hello World".
Proof.
  unfold Route.textContent. split; [reflexivity|].
  split; [apply trim_replace_ws|]. split; [|split; [|split]].
  - intros H. apply trim_In in H. apply replace_ws_In in H.
    destruct H as [H|H]; [discriminate H|]. exact (replace_tags_no_LT _ _ H).
  - now rewrite visible_trim, visible_replace_ws, visible_replace_tags.
  - destruct (replace_ws_shape false (replace_tags false html)) as (H1 & H2 & _).
    destruct (trim_infix (replace_ws false (replace_tags false html)))
      as (l1 & l2 & Hl).
    repeat split.
    + intros c Hc. apply H1. now apply trim_In.
    + rewrite Hl in H2. eapply no_ws_pair_infix. exact H2.
    + apply trim_head.
    + intros r c. apply trimEnd_last.
  - vm_compute. reflexivity.
Qed.

End Extraction.

(** ** The route handler *)

Section RouteHandler.
Variables (W exn fetch_response generation : Type).
Variable req_json : M W exn json.
Variable fetch : json -> list (string * jsstring) -> M W exn fetch_response.
Variable response_text : fetch_response -> M W exn jsstring.
Variable generateContent : jsstring -> M W exn generation.
Variable generation_text : generation -> result exn jsstring.
Variable type_error : exn.

Local Notation POST :=
  (Route.POST req_json fetch response_text generateContent generation_text type_error).
Local Notation succeeds :=
  (Route.succeeds req_json fetch response_text generateContent generation_text type_error).

Lemma slice0_prefix n s : exists rest, s = slice0 n s ++ rest.
Proof. exists (skipn (N.to_nat n) s). unfold slice0. now rewrite firstn_skipn. Qed.

Lemma slice0_length n s : (N.of_nat (List.length (slice0 n s)) <= n)%N.
Proof.
  unfold slice0. pose proof (firstn_le_length (N.to_nat n) s). lia.
Qed.

Lemma slice0_short n s : (N.of_nat (List.length s) <= n)%N -> slice0 n s = s.
Proof. intros H. unfold slice0. apply firstn_all2. lia. Qed.

Lemma POST_of_succeeds w summary urdu w' :
  succeeds w summary urdu w' ->
  POST w = ({| Route.status := 200;
               Route.body := JObj [("summary"%string, JStr summary);
                                   ("urduTranslation"%string, JStr urdu)] |}, w').
Proof.
  intros (data & url & response & html & r1 & r2 & w1 & w2 & w3 & w4 &
          H1 & H2 & H3 & H4 & H5 & H6 & H7 & H8).
  unfold Route.POST, Route.POST_try, bind, lift.
  now rewrite H1, H2, H3, H4, H5, H6, H7, H8.
Qed.

(** The cut of the prompt is the first [n] code units: whatever begins the
    text and has [min n (length text)] code units is what [slice] returns. *)
Lemma slice0_is_prefix n text prefix rest :
  text = prefix ++ rest ->
  N.of_nat (List.length prefix) = N.min n (N.of_nat (List.length text)) ->
  slice0 n text = prefix.
Proof.
  intros -> Hlen. unfold slice0. rewrite length_app in Hlen.
  rewrite firstn_app, (firstn_all2 prefix) by lia.
  assert (Hrest : firstn (N.to_nat n - List.length prefix) rest = []).
  { destruct rest as [|c rest]; [apply firstn_nil|].
    replace (N.to_nat n - List.length prefix) with 0; [reflexivity|].
    simpl in Hlen. lia. }
  rewrite Hrest. apply app_nil_r.
Qed.

(** C1.  For a request [{ url }] whose page is fetched and read and whose
    two completion calls return, the handler answers 200 with exactly
    [{ summary, urduTranslation }]: [summary] is the completion of the
    five-sentence prompt over the first 12,000 code units of the extracted
    text (all of it when it is shorter), [urduTranslation] the completion
    of the formal-Urdu prompt over that [summary].  [prefix] is that
    beginning of the extracted text: the text is [prefix ++ rest] and
    [prefix] has [min 12000 (length text)] code units. *)
Theorem POST_success
    (url : json) (response : fetch_response) (html prefix rest : jsstring)
    (summaryResult translationResult : generation)
    (summary urduTranslation : jsstring) (w0 w1 w2 w3 w4 w5 : W) :
  req_json w0 = (Ok (JObj [("url"%string, url)]), w1) ->
  fetch url Route.user_agent w1 = (Ok response, w2) ->
  response_text response w2 = (Ok html, w3) ->
  Route.textContent html = prefix ++ rest ->
  N.of_nat (List.length prefix)
  = N.min 12000 (N.of_nat (List.length (Route.textContent html))) ->
  generateContent
    (lit "Summarize this blog in 5 clear sentences:" ++ [NL; NL] ++ prefix) w3
  = (Ok summaryResult, w4) ->
  generation_text summaryResult = Ok summary ->
  generateContent
    (lit "Translate the following summary into formal Urdu:" ++ [NL; NL]
     ++ summary) w4 = (Ok translationResult, w5) ->
  generation_text translationResult = Ok urduTranslation ->
  POST w0 = ({| Route.status := 200;
                Route.body := JObj [("summary"%string, JStr summary);
                                    ("urduTranslation"%string, JStr urduTranslation)] |},
             w5).
Proof.
  intros H1 H3 H4 Hpre Hlen H5 H6 H7 H8.
  apply POST_of_succeeds.
  exists (JObj [("url"%string, url)]), url, response, html,
    summaryResult, translationResult, w1, w2, w3, w4.
  repeat split; try assumption.
  unfold Route.promptSummary.
  rewrite (slice0_is_prefix 12000 (Route.textContent html) prefix rest Hpre Hlen).
  exact H5.
Qed.

Lemma succeeds_or_throws w :
  (exists summary urdu w', succeeds w summary urdu w')
  \/ (exists e w', Route.POST_try req_json fetch response_text generateContent
                     generation_text type_error w = (Throw e, w')).
Proof.
  unfold Route.succeeds, Route.POST_try, bind, lift.
  destruct (req_json w) as [[data|e] w1] eqn:H1; [|right; eauto].
  destruct (Route.destructure_url type_error data) as [url|e] eqn:H2; [|right; eauto].
  destruct (fetch url Route.user_agent w1) as [[response|e] w2] eqn:H3; [|right; eauto].
  destruct (response_text response w2) as [[html|e] w3] eqn:H4; [|right; eauto].
  destruct (generateContent (Route.promptSummary (Route.textContent html)) w3)
    as [[r1|e] w4] eqn:H5; [|right; eauto].
  destruct (generation_text r1) as [summary|e] eqn:H6; [|right; eauto].
  destruct (generateContent (Route.promptTranslate summary) w4)
    as [[r2|e] w5] eqn:H7; [|right; eauto].
  destruct (generation_text r2) as [urdu|e] eqn:H8; [|right; eauto].
  left. exists summary, urdu, w5, data, url, response, html, r1, r2, w1, w2, w3, w4.
  repeat split; assumption.
Qed.

(** C2.  When some step of the handler throws, that is when the steps do
    not all go through, the answer is the 500 response whose body is the
    one fixed [error] message: it has no [summary] and no
    [urduTranslation] field, so nothing partial is returned. *)
Theorem POST_failure (w : W) :
  (forall summary urdu w', ~ succeeds w summary urdu w') ->
  exists w',
    POST w = ({| Route.status := 500;
                 Route.body := JObj [("error"%string, JStr Route.error_message)] |}, w')
    /\ Route.field "error" (fst (POST w)) = Some (JStr Route.error_message)
    /\ Route.field "summary" (fst (POST w)) = None
    /\ Route.field "urduTranslation" (fst (POST w)) = None.
Proof.
  intros Hfail.
  destruct (succeeds_or_throws w) as [(s & u & w' & H)|(e & w' & H)].
  - exfalso. exact (Hfail _ _ _ H).
  - exists w'. unfold Route.POST. rewrite H. repeat split.
Qed.

(** The two outcomes are the only ones. *)
Lemma POST_total w :
  (exists summary urdu w',
      succeeds w summary urdu w'
      /\ POST w = ({| Route.status := 200;
                      Route.body := JObj [("summary"%string, JStr summary);
                                          ("urduTranslation"%string, JStr urdu)] |}, w'))
  \/ (exists w',
      (forall summary urdu w'', ~ succeeds w summary urdu w'')
      /\ POST w = ({| Route.status := 500;
                      Route.body := JObj [("error"%string, JStr Route.error_message)] |}, w')).
Proof.
  destruct (succeeds_or_throws w) as [(s & u & w' & H)|(e & w' & H)].
  - left. exists s, u, w'. split; [exact H | now apply POST_of_succeeds].
  - right. exists w'. split.
    + intros s u w'' Hs. apply POST_of_succeeds in Hs.
      unfold Route.POST in Hs. rewrite H in Hs. discriminate Hs.
    + unfold Route.POST. now rewrite H.
Qed.

End RouteHandler.

(** With a quota of one call the summary is computed and the translation
    throws: the whole request fails. *)
Lemma POST_failure_witness :
  exists w',
    Route.sample_POST 1 0%nat
    = ({| Route.status := 500;
          Route.body := JObj [("error"%string, JStr Route.error_message)] |}, w')
    /\ Route.field "error" (fst (Route.sample_POST 1 0%nat))
       = Some (JStr Route.error_message)
    /\ Route.field "summary" (fst (Route.sample_POST 1 0%nat)) = None
    /\ Route.field "urduTranslation" (fst (Route.sample_POST 1 0%nat)) = None.
Proof.
  unfold Route.sample_POST.
  apply (@POST_failure nat jsstring jsstring jsstring Route.sample_request
           Route.sample_fetch (fun r => ret r) (Route.sample_generate 1)
           (fun g => Ok g) (lit "TypeError") 0%nat).
  intros summary urdu w' H.
  apply POST_of_succeeds in H. vm_compute in H. discriminate H.
Defined.

(** ** Retry with exponential backoff *)

Import Client.

Section RetryFacts.
Variables (W : Type) (B : Browser W).
Variables (A E : Type).
Variable fn : M W E A.
Variables (maxRetries : nat) (delay : Z).

Lemma attempt_unfold retryCount w :
  attempt B fn maxRetries delay retryCount w =
  match fn w with
  | (Ok a, w') => (Ok a, [Invoke retryCount], w')
  | (Throw error, w') =>
      if le_lt_dec maxRetries retryCount
      then (Throw error, [Invoke retryCount], w')
      else log [Invoke retryCount; SetTimeout (delay * 2 ^ Z.of_nat retryCount)]
             (attempt B fn maxRetries delay (S retryCount)
                (elapse B (delay * 2 ^ Z.of_nat retryCount) w'))
  end.
Proof.
  rewrite attempt_equation_1.
  destruct (fn w) as [[a|e] w']; simpl; [reflexivity|].
  destruct (le_lt_dec maxRetries retryCount); reflexivity.
Qed.

Lemma attempt_resolves retryCount w a w' :
  fn w = (Ok a, w') ->
  attempt B fn maxRetries delay retryCount w = (Ok a, [Invoke retryCount], w').
Proof. intros H. now rewrite attempt_unfold, H. Qed.

Lemma attempt_rejects retryCount w e w' :
  fn w = (Throw e, w') -> maxRetries <= retryCount ->
  attempt B fn maxRetries delay retryCount w = (Throw e, [Invoke retryCount], w').
Proof.
  intros H Hle. rewrite attempt_unfold, H.
  destruct (le_lt_dec maxRetries retryCount); [reflexivity | lia].
Qed.

Lemma attempt_retries retryCount w e w' :
  fn w = (Throw e, w') -> retryCount < maxRetries ->
  attempt B fn maxRetries delay retryCount w =
  log [Invoke retryCount; SetTimeout (delay * 2 ^ Z.of_nat retryCount)]
      (attempt B fn maxRetries delay (S retryCount)
         (elapse B (delay * 2 ^ Z.of_nat retryCount) w')).
Proof.
  intros H Hlt. rewrite attempt_unfold, H.
  destruct (le_lt_dec maxRetries retryCount); [lia | reflexivity].
Qed.

(** What the wrapper settles with is what some invocation of [fn]
    settled with. *)
Lemma attempt_outcome_of_fn retryCount w :
  exists w0, fn w0 = (fst (fst (attempt B fn maxRetries delay retryCount w)),
                      snd (attempt B fn maxRetries delay retryCount w)).
Proof.
  apply (@attempt_elim W B A E fn maxRetries delay
           (fun rc w out => exists w0, fn w0 = (fst (fst out), snd out))).
  - intros rc w1 a w' H. now exists w1.
  - intros rc l w1 e w' _ H. now exists w1.
  - intros rc l w1 e w' [w0 IH] _ H. exists w0.
    destruct (attempt B fn maxRetries delay (S rc) _) as [[r tr] w2]. exact IH.
Qed.

Lemma backoff_last : backoff maxRetries delay maxRetries = [Invoke maxRetries].
Proof. unfold backoff. now rewrite Nat.sub_diag. Qed.

Lemma backoff_step retryCount :
  retryCount < maxRetries ->
  backoff maxRetries delay retryCount =
  Invoke retryCount :: SetTimeout (delay * 2 ^ Z.of_nat retryCount)
    :: backoff maxRetries delay (S retryCount).
Proof.
  intros H. unfold backoff.
  replace (maxRetries - retryCount) with (S (maxRetries - S retryCount)) by lia.
  reflexivity.
Qed.

(** When every invocation fails the wrapper runs the whole schedule and
    then rejects. *)
Lemma attempt_all_fail :
  (forall w, exists e w', fn w = (Throw e, w')) ->
  forall k retryCount w,
    maxRetries - retryCount = k -> retryCount <= maxRetries ->
    exists e w',
      attempt B fn maxRetries delay retryCount w =
      (Throw e, backoff maxRetries delay retryCount, w').
Proof.
  intros Hfail. induction k as [|k IH]; intros rc w Hk Hle.
  - destruct (Hfail w) as (e & w' & H). exists e, w'.
    replace rc with maxRetries in * by lia.
    rewrite backoff_last. apply attempt_rejects; [exact H | lia].
  - destruct (Hfail w) as (e & w' & H).
    rewrite (attempt_retries _ _ _ _ H) by lia.
    destruct (IH (S rc) (elapse B (delay * 2 ^ Z.of_nat rc) w')) as (e' & w'' & H');
      [lia | lia |].
    exists e', w''. rewrite H', (backoff_step rc) by lia. reflexivity.
Qed.

(** The wrapper never invokes [fn] more than [maxRetries + 1] times. *)
Lemma attempt_bounded retryCount w :
  invocations (snd (fst (attempt B fn maxRetries delay retryCount w)))
  <= S (maxRetries - retryCount).
Proof.
  apply (@attempt_elim W B A E fn maxRetries delay
           (fun rc w out => invocations (snd (fst out)) <= S (maxRetries - rc))).
  - intros rc w1 a w' H. cbn. lia.
  - intros rc l w1 e w' _ H. cbn. lia.
  - intros rc l w1 e w' IH _ H.
    destruct (attempt B fn maxRetries delay (S rc) _) as [[r tr] w2].
    cbn in *. unfold invocations in *. cbn. lia.
Qed.

End RetryFacts.

(** One failed attempt that is retried, one that is final, one that succeeds. *)
Ltac retried H := erewrite attempt_retries by (first [exact H | lia]).
Ltac rejected H := erewrite attempt_rejects by (first [exact H | lia]).
Ltac resolved H := erewrite attempt_resolves by exact H.

(** Four failures in a row, with base delay 1000 ms and 3 retries. *)
Lemma four_failures (W : Type) (B : Browser W) (A E : Type) (fn : M W E A)
      (w w0 w1 w2 w3 : W) (e0 e1 e2 e3 : E) :
  fn w = (Throw e0, w0) ->
  fn (elapse B (1000 * 2 ^ 0) w0) = (Throw e1, w1) ->
  fn (elapse B (1000 * 2 ^ 1) w1) = (Throw e2, w2) ->
  fn (elapse B (1000 * 2 ^ 2) w2) = (Throw e3, w3) ->
  retryWithBackoff B fn 3 1000 w
  = (Throw e3,
     [Invoke 0; SetTimeout 1000; Invoke 1; SetTimeout 2000;
      Invoke 2; SetTimeout 4000; Invoke 3], w3).
Proof.
  intros H0 H1 H2 H3. unfold retryWithBackoff.
  retried H0. retried H1. retried H2. rejected H3. reflexivity.
Qed.

Section RetrySchedule.
Variables (W : Type) (B : Browser W).

(** C3, amended.  A function that fails on its first two invocations and
    succeeds on its third makes the wrapper (base delay 1000 ms, 3
    retries) resolve with the third invocation's result; the timer set
    after the second failure waits 1000 * 2^1 = 2000 ms. *)
Theorem retry_third_attempt (A E : Type) (fn : M W E A)
    (w w0 w1 w2 : W) (e0 e1 : E) (a : A) :
  fn w = (Throw e0, w0) ->
  fn (elapse B 1000 w0) = (Throw e1, w1) ->
  fn (elapse B 2000 w1) = (Ok a, w2) ->
  retryWithBackoff B fn 3 1000 w
  = (Ok a, [Invoke 0; SetTimeout 1000; Invoke 1; SetTimeout 2000; Invoke 2], w2)
  /\ timer_before 2 (snd (fst (retryWithBackoff B fn 3 1000 w)))
     = Some (1000 * 2 ^ 1)%Z.
Proof.
  intros H0 H1 H2.
  assert (Hrun : retryWithBackoff B fn 3 1000 w
                 = (Ok a, [Invoke 0; SetTimeout 1000; Invoke 1;
                           SetTimeout 2000; Invoke 2], w2)).
  { unfold retryWithBackoff.
    retried H0. change (1000 * 2 ^ Z.of_nat 0)%Z with 1000%Z.
    retried H1. change (1000 * 2 ^ Z.of_nat 1)%Z with 2000%Z.
    resolved H2. reflexivity. }
  split; [exact Hrun|]. rewrite Hrun. reflexivity.
Qed.

(** C6.  A function that fails on every invocation is invoked four times
    by the wrapper (base delay 1000 ms, 3 retries), attempt [i + 1]
    following attempt [i] after 1000 * 2^i ms; the promise is then
    rejected with the failure of the fourth invocation. *)
Theorem retry_exhausted (A E : Type) (fn : M W E A) :
  (forall w, exists e w', fn w = (Throw e, w')) ->
  forall w, exists e0 w0 e1 w1 e2 w2 e3 w3,
    fn w = (Throw e0, w0)
    /\ fn (elapse B (1000 * 2 ^ 0) w0) = (Throw e1, w1)
    /\ fn (elapse B (1000 * 2 ^ 1) w1) = (Throw e2, w2)
    /\ fn (elapse B (1000 * 2 ^ 2) w2) = (Throw e3, w3)
    /\ retryWithBackoff B fn 3 1000 w
       = (Throw e3,
          [Invoke 0; SetTimeout 1000; Invoke 1; SetTimeout 2000;
           Invoke 2; SetTimeout 4000; Invoke 3], w3)
    /\ invocations (snd (fst (retryWithBackoff B fn 3 1000 w))) = 4.
Proof.
  intros Hfail w.
  destruct (Hfail w) as (e0 & w0 & H0).
  destruct (Hfail (elapse B (1000 * 2 ^ 0) w0)) as (e1 & w1 & H1).
  destruct (Hfail (elapse B (1000 * 2 ^ 1) w1)) as (e2 & w2 & H2).
  destruct (Hfail (elapse B (1000 * 2 ^ 2) w2)) as (e3 & w3 & H3).
  exists e0, w0, e1, w1, e2, w2, e3, w3.
  pose proof (four_failures W B A E fn w w0 w1 w2 w3 e0 e1 e2 e3 H0 H1 H2 H3) as Hrun.
  repeat split; try assumption. rewrite Hrun. reflexivity.
Qed.

End RetrySchedule.

Lemma retry_third_attempt_witness :
  retryWithBackoff scripted (scripted_fetch []) 3 1000
    (world [Throw failed_to_fetch; Throw failed_to_fetch; answer 200 good_summary])
  = (answer 200 good_summary,
     [Invoke 0; SetTimeout 1000; Invoke 1; SetTimeout 2000; Invoke 2],
     {| script := []; clock := 3000; clipboard_allowed := false |})
  /\ timer_before 2
       (snd (fst (retryWithBackoff scripted (scripted_fetch []) 3 1000
          (world [Throw failed_to_fetch; Throw failed_to_fetch; answer 200 good_summary]))))
     = Some (1000 * 2 ^ 1)%Z.
Proof.
  apply (retry_third_attempt World scripted Response NativeError (scripted_fetch [])
           (world [Throw failed_to_fetch; Throw failed_to_fetch; answer 200 good_summary])
           {| script := [Throw failed_to_fetch; answer 200 good_summary];
              clock := 0; clipboard_allowed := false |}
           {| script := [answer 200 good_summary];
              clock := 1000; clipboard_allowed := false |}
           {| script := []; clock := 3000; clipboard_allowed := false |}
           failed_to_fetch failed_to_fetch
           {| status := 200; json_body := Ok good_summary |});
    reflexivity.
Defined.

(** C3 as stated fails: with two failures and then a success, the timer set
    after the second failure waits 2000 ms, not 1000 * 2^2 = 4000 ms. *)
Lemma retry_third_delay_counterexample :
  fst (fst (retryWithBackoff scripted (scripted_fetch []) 3 1000
     (world [Throw failed_to_fetch; Throw failed_to_fetch; answer 200 good_summary])))
  = answer 200 good_summary
  /\ timer_before 2
       (snd (fst (retryWithBackoff scripted (scripted_fetch []) 3 1000
          (world [Throw failed_to_fetch; Throw failed_to_fetch; answer 200 good_summary]))))
     = Some 2000%Z
  /\ timer_before 2
       (snd (fst (retryWithBackoff scripted (scripted_fetch []) 3 1000
          (world [Throw failed_to_fetch; Throw failed_to_fetch; answer 200 good_summary]))))
     <> Some (1000 * 2 ^ 2)%Z.
Proof.
  repeat split; [vm_compute; reflexivity .. | vm_compute; discriminate].
Qed.

Lemma retry_exhausted_witness :
  exists e0 w0 e1 w1 e2 w2 e3 w3,
    offline_fetch [] (world []) = (Throw e0, w0)
    /\ offline_fetch [] (elapse scripted (1000 * 2 ^ 0) w0) = (Throw e1, w1)
    /\ offline_fetch [] (elapse scripted (1000 * 2 ^ 1) w1) = (Throw e2, w2)
    /\ offline_fetch [] (elapse scripted (1000 * 2 ^ 2) w2) = (Throw e3, w3)
    /\ retryWithBackoff scripted (offline_fetch []) 3 1000 (world [])
       = (Throw e3,
          [Invoke 0; SetTimeout 1000; Invoke 1; SetTimeout 2000;
           Invoke 2; SetTimeout 4000; Invoke 3], w3)
    /\ invocations (snd (fst (retryWithBackoff scripted (offline_fetch []) 3 1000 (world []))))
       = 4.
Proof.
  apply (retry_exhausted World scripted Response NativeError (offline_fetch [])).
  intros w. exists failed_to_fetch, w. reflexivity.
Defined.

(** ** Independence of the retry schedule from the failure *)

Section RetryIndependence.
Variables (W : Type) (B : Browser W).

Lemma attempt_same_run (A E1 E2 : Type) (fn1 : M W E1 A) (fn2 : M W E2 A)
      (maxRetries : nat) (delay : Z) :
  (forall w, same_call (fn1 w) (fn2 w)) ->
  forall k retryCount w,
    maxRetries - retryCount = k ->
    same_run (attempt B fn1 maxRetries delay retryCount w)
             (attempt B fn2 maxRetries delay retryCount w).
Proof.
  intros Hsame. induction k as [|k IH]; intros rc w Hk;
    rewrite (attempt_unfold W B A E1 fn1), (attempt_unfold W B A E2 fn2);
    destruct (Hsame w) as [Hkind Hw];
    destruct (fn1 w) as [[a1|e1] w1], (fn2 w) as [[a2|e2] w2];
    simpl in Hkind, Hw; subst; try contradiction;
    try (repeat split; reflexivity).
  - destruct (le_lt_dec maxRetries rc); [repeat split; reflexivity | lia].
  - destruct (le_lt_dec maxRetries rc); [repeat split; reflexivity |].
    specialize (IH (S rc) (elapse B (delay * 2 ^ Z.of_nat rc) w2) ltac:(lia)).
    destruct (attempt B fn1 maxRetries delay (S rc) _) as [[r1 t1] v1].
    destruct (attempt B fn2 maxRetries delay (S rc) _) as [[r2 t2] v2].
    destruct IH as (H1 & H2 & H3). simpl in *. subst.
    repeat split. exact H1.
Qed.

(** A response with an error status and an object as body makes [apiCall]
    throw the structured error of [handleApiError]. *)
Lemma apiCall_error_status url w st fields w' :
  fetch B (trim url) w = (Ok {| status := st; json_body := Ok (JObj fields) |}, w') ->
  st = 400%Z \/ st = 429%Z ->
  exists e,
    apiCall B url w = (Throw (Structured e), w')
    /\ recoverable e = true
    /\ ((st = 400%Z /\ type e = VALIDATION)
        \/ (st = 429%Z /\ type e = RATE_LIMIT
            /\ exists retryAfter,
                details e = JObj [("status"%string, JNum 429);
                                  ("retryAfter"%string, retryAfter)])).
Proof.
  intros H Hst. unfold apiCall, bind, rethrow, lift. rewrite H.
  destruct Hst as [-> | ->]; cbn.
  - eexists. split; [reflexivity|]. split; [reflexivity|]. left. now split.
  - eexists. split; [reflexivity|]. split; [reflexivity|]. right.
    repeat split. eexists. reflexivity.
Qed.

Lemma apiCall_transport_failure url w e w' :
  fetch B (trim url) w = (Throw e, w') ->
  apiCall B url w = (Throw (Native e), w').
Proof. intros H. unfold apiCall, bind, rethrow. now rewrite H. Qed.

(** C10.  Whether and when the wrapper retries does not depend on the
    value of a failure: two functions whose invocations differ only in
    the values they fail with are invoked at the same times.  So when the
    server answers every request with 400 or 429, whatever [retryAfter]
    says, and when every request fails in transport, [apiCall] is retried
    on the one schedule 1000, 2000, 4000 ms; the structured error, which
    carries [recoverable] and [retryAfter], only ends up as the value the
    wrapper is rejected with. *)
Theorem retry_ignores_failure_value
    (A E1 E2 : Type) (fn1 : M W E1 A) (fn2 : M W E2 A)
    (maxRetries : nat) (delay : Z) (w : W) :
  (forall w, same_call (fn1 w) (fn2 w)) ->
  same_run (retryWithBackoff B fn1 maxRetries delay w)
           (retryWithBackoff B fn2 maxRetries delay w)
  /\ (forall url,
        (forall w, exists st fields w',
            fetch B (trim url) w
            = (Ok {| status := st; json_body := Ok (JObj fields) |}, w')
            /\ (st = 400%Z \/ st = 429%Z)) ->
        forall w, exists e w',
          retryWithBackoff B (apiCall B url) 3 1000 w
          = (Throw (Structured e),
             [Invoke 0; SetTimeout 1000; Invoke 1; SetTimeout 2000;
              Invoke 2; SetTimeout 4000; Invoke 3], w')
          /\ recoverable e = true
          /\ (type e = VALIDATION
              \/ (type e = RATE_LIMIT
                  /\ exists retryAfter,
                      details e = JObj [("status"%string, JNum 429);
                                        ("retryAfter"%string, retryAfter)])))
  /\ (forall url,
        (forall w, exists e w', fetch B (trim url) w = (Throw e, w')) ->
        forall w, exists e w',
          retryWithBackoff B (apiCall B url) 3 1000 w
          = (Throw (Native e),
             [Invoke 0; SetTimeout 1000; Invoke 1; SetTimeout 2000;
              Invoke 2; SetTimeout 4000; Invoke 3], w')).
Proof.
  intros Hsame. split; [|split].
  - unfold retryWithBackoff.
    exact (attempt_same_run A E1 E2 fn1 fn2 maxRetries delay Hsame
             (maxRetries - 0) 0 w eq_refl).
  - intros url Hsrv w0.
    assert (Hfail : forall w, exists e w', apiCall B url w = (Throw e, w')).
    { intros v. destruct (Hsrv v) as (st & fields & v' & Hf & Hst).
      destruct (apiCall_error_status url v st fields v' Hf Hst) as (e & He & _).
      eauto. }
    destruct (Hfail w0) as (e0 & w0' & H0).
    destruct (Hfail (elapse B (1000 * 2 ^ 0) w0')) as (e1 & w1 & H1).
    destruct (Hfail (elapse B (1000 * 2 ^ 1) w1)) as (e2 & w2 & H2).
    destruct (Hsrv (elapse B (1000 * 2 ^ 2) w2)) as (st & fields & v' & Hf & Hst).
    destruct (apiCall_error_status url _ st fields v' Hf Hst) as (e & He & Hrec & Hty).
    exists e, v'.
    split; [exact (four_failures W B json ErrorValue (apiCall B url)
                     w0 w0' w1 w2 v' e0 e1 e2 (Structured e) H0 H1 H2 He)|].
    split; [exact Hrec|].
    destruct Hty as [[_ Hty] | (_ & Hty & Hd)]; [now left | now right].
  - intros url Hnet w0.
    assert (Hfail : forall w, exists e w', apiCall B url w = (Throw e, w')).
    { intros v. destruct (Hnet v) as (e & v' & Hf).
      rewrite (apiCall_transport_failure url v e v' Hf). eauto. }
    destruct (Hfail w0) as (e0 & w0' & H0).
    destruct (Hfail (elapse B (1000 * 2 ^ 0) w0')) as (e1 & w1 & H1).
    destruct (Hfail (elapse B (1000 * 2 ^ 1) w1)) as (e2 & w2 & H2).
    destruct (Hnet (elapse B (1000 * 2 ^ 2) w2)) as (e & v' & Hf).
    exists e, v'.
    exact (four_failures W B json ErrorValue (apiCall B url)
             w0 w0' w1 w2 v' e0 e1 e2 (Native e) H0 H1 H2
             (apiCall_transport_failure url _ e v' Hf)).
Qed.

End RetryIndependence.

Lemma same_call_refl (W E A : Type) (x : result E A * W) : same_call x x.
Proof. destruct x as [[a|e] w]; split; simpl; trivial. Qed.

Lemma same_call_rethrow (W E E' A : Type) (f : E -> E') (m : M W E A) (w : W) :
  same_call (m w) (rethrow f m w).
Proof. unfold rethrow. destruct (m w) as [[a|e] w']; split; simpl; trivial. Qed.

Lemma retry_ignores_failure_value_witness :
  same_run
    (retryWithBackoff rate_limited
       (apiCall rate_limited (lit "https://medium.com/@x/y")) 3 1000 (world []))
    (retryWithBackoff rate_limited
       (rethrow (fun _ => tt) (apiCall rate_limited (lit "https://medium.com/@x/y")))
       3 1000 (world []))
  /\ (exists e w',
        retryWithBackoff rate_limited
          (apiCall rate_limited (lit "https://medium.com/@x/y")) 3 1000 (world [])
        = (Throw (Structured e),
           [Invoke 0; SetTimeout 1000; Invoke 1; SetTimeout 2000;
            Invoke 2; SetTimeout 4000; Invoke 3], w')
        /\ recoverable e = true
        /\ (type e = VALIDATION
            \/ (type e = RATE_LIMIT
                /\ exists retryAfter,
                    details e = JObj [("status"%string, JNum 429);
                                      ("retryAfter"%string, retryAfter)])))
  /\ (exists e w',
        retryWithBackoff offline
          (apiCall offline (lit "https://medium.com/@x/y")) 3 1000 (world [])
        = (Throw (Native e),
           [Invoke 0; SetTimeout 1000; Invoke 1; SetTimeout 2000;
            Invoke 2; SetTimeout 4000; Invoke 3], w')).
Proof.
  split; [|split].
  - apply (retry_ignores_failure_value World rate_limited json ErrorValue unit
             (apiCall rate_limited (lit "https://medium.com/@x/y"))
             (rethrow (fun _ => tt) (apiCall rate_limited (lit "https://medium.com/@x/y")))
             3 1000 (world [])).
    intros w. apply same_call_rethrow.
  - apply (proj1 (proj2
      (retry_ignores_failure_value World rate_limited json ErrorValue ErrorValue
         (apiCall rate_limited (lit "https://medium.com/@x/y"))
         (apiCall rate_limited (lit "https://medium.com/@x/y"))
         3 1000 (world []) (fun w => same_call_refl _ _ _ _)))
      (lit "https://medium.com/@x/y")).
    intros w. exists 429%Z. eexists. exists w. split; [reflexivity | now right].
  - apply (proj2 (proj2
      (retry_ignores_failure_value World offline json ErrorValue ErrorValue
         (apiCall offline (lit "https://medium.com/@x/y"))
         (apiCall offline (lit "https://medium.com/@x/y"))
         3 1000 (world []) (fun w => same_call_refl _ _ _ _)))
      (lit "https://medium.com/@x/y")).
    intros w. exists failed_to_fetch, w. reflexivity.
Defined.

(** ** Strings *)

Section Strings.

Lemma eqb_spec (a b : jsstring) : JS.eqb a b = true <-> a = b.
Proof.
  revert b; induction a as [|x a IH]; intros [|y b]; simpl;
    try (split; [discriminate | discriminate]); [tauto|].
  rewrite andb_true_iff, N.eqb_eq, IH. split.
  - intros [-> ->]. reflexivity.
  - intros H. injection H as -> ->. now split.
Qed.

Lemma eqb_refl (a : jsstring) : JS.eqb a a = true.
Proof. now apply eqb_spec. Qed.

Lemma eqb_neq (a b : jsstring) : a <> b -> JS.eqb a b = false.
Proof.
  intros H. destruct (JS.eqb a b) eqn:E; [|reflexivity].
  apply eqb_spec in E. contradiction.
Qed.

Lemma startsWith_spec (p s : jsstring) :
  startsWith p s = true <-> exists r, s = p ++ r.
Proof.
  revert s; induction p as [|x p IH]; intros s; simpl.
  - split; [intros _; now exists s | reflexivity].
  - destruct s as [|y s].
    + split; [discriminate | intros [r H]; discriminate H].
    + rewrite andb_true_iff, N.eqb_eq, IH. split.
      * intros [-> [r ->]]. now exists r.
      * intros [r H]. injection H as -> ->. split; [reflexivity | now exists r].
Qed.

(** [includes], which stands for the patterns' [test], finds exactly the
    occurrences of the pattern. *)
Lemma includes_spec (p s : jsstring) : includes p s = true <-> occurs p s.
Proof.
  unfold occurs. induction s as [|y s IH]; simpl.
  - rewrite orb_false_r, startsWith_spec. split.
    + intros [r H]. now exists [], r.
    + intros (l1 & l2 & H). destruct l1; [now exists l2 |discriminate H].
  - rewrite orb_true_iff, IH, startsWith_spec. split.
    + intros [[r H] | (l1 & l2 & H)].
      * now exists [], r.
      * exists (y :: l1), l2. simpl. now f_equal.
    + intros (l1 & l2 & H). destruct l1 as [|z l1]; simpl in H.
      * left. now exists l2.
      * right. injection H as _ H. now exists l1, l2.
Qed.

Lemma includes_false (p s : jsstring) : includes p s = false <-> ~ occurs p s.
Proof.
  rewrite <- includes_spec. destruct (includes p s); split; congruence.
Qed.

End Strings.

(** ** URL validation *)

Section Validation.
Variables (W : Type) (B : Browser W).

Lemma protocol_check (p : jsstring) :
  existsb (JS.eqb p) [lit "http:"; lit "https:"] = true <-> http_or_https p.
Proof.
  unfold http_or_https. simpl.
  rewrite orb_false_r, orb_true_iff, !eqb_spec. tauto.
Qed.

Lemma isLikelyBlog_spec (url : jsstring) :
  existsb (fun pattern => includes pattern url) blogPatterns = true
  <-> looks_like_blog url.
Proof.
  unfold looks_like_blog. rewrite existsb_exists.
  split; intros (p & Hin & H); exists p; (split; [exact Hin|]);
    now apply includes_spec.
Qed.

Lemma validateUrl_empty url now :
  trim url = [] ->
  validateUrl B url now
  = Some (createError VALIDATION (JStr (lit "Please enter a URL")) JNull true now).
Proof. intros H. unfold validateUrl. now rewrite H. Qed.

Lemma validateUrl_unparsable url now reason :
  trim url <> [] -> new_URL B url = Throw reason ->
  validateUrl B url now
  = Some (createError INVALID_URL
            (JStr (lit "Invalid URL format. Please check your URL."))
            (JObj [("originalError"%string, JStr reason)]) true now).
Proof.
  intros Hne H. unfold validateUrl.
  destruct (trim url); [contradiction|]. now rewrite H.
Qed.

Lemma validateUrl_scheme url now u :
  trim url <> [] -> new_URL B url = Ok u -> ~ http_or_https (protocol u) ->
  validateUrl B url now
  = Some (createError INVALID_URL
            (JStr (lit "URL must use HTTP or HTTPS protocol")) JNull true now).
Proof.
  intros Hne H Hp. unfold validateUrl.
  destruct (trim url); [contradiction|]. rewrite H.
  destruct (existsb _ _) eqn:E; [|reflexivity].
  apply protocol_check in E. contradiction.
Qed.

Lemma validateUrl_not_blog url now u :
  trim url <> [] -> new_URL B url = Ok u -> http_or_https (protocol u) ->
  ~ looks_like_blog url ->
  validateUrl B url now
  = Some (createError VALIDATION
            (JStr (lit "This doesn't appear to be a blog URL. Please verify the link."))
            (JObj [("url"%string, JStr url)]) true now).
Proof.
  intros Hne H Hp Hb. unfold validateUrl.
  destruct (trim url); [contradiction|]. rewrite H.
  apply protocol_check in Hp. rewrite Hp. cbn [negb].
  destruct (existsb (fun pattern => includes pattern url) blogPatterns) eqn:E;
    [|reflexivity].
  apply isLikelyBlog_spec in E. contradiction.
Qed.

Lemma validateUrl_blog url now u :
  trim url <> [] -> new_URL B url = Ok u -> http_or_https (protocol u) ->
  looks_like_blog url ->
  validateUrl B url now = None.
Proof.
  intros Hne H Hp Hb. unfold validateUrl.
  destruct (trim url); [contradiction|]. rewrite H.
  apply protocol_check in Hp. rewrite Hp. cbn [negb].
  apply isLikelyBlog_spec in Hb. now rewrite Hb.
Qed.

(** C4.  The validator answers, for every candidate string: a
    [validation] error when the string is empty once trimmed; an
    [invalid_url] error when it does not parse or parses with a scheme
    other than http and https; the advisory [validation] error, which
    carries the URL, when it is an http or https URL in which none of the
    blog patterns occurs; and no error otherwise.  With a parser that
    reads [https:] off them, [https://example.com/] gets the advisory
    error and [https://medium.com/@x/y] no error. *)
Theorem validateUrl_cases (url now : jsstring) :
  (trim url = [] ->
     exists e, validateUrl B url now = Some e
               /\ type e = VALIDATION /\ details e = JNull)
  /\ (trim url <> [] -> forall reason,
        new_URL B url = Throw reason ->
        exists e, validateUrl B url now = Some e /\ type e = INVALID_URL)
  /\ (trim url <> [] -> forall u,
        new_URL B url = Ok u -> ~ http_or_https (protocol u) ->
        exists e, validateUrl B url now = Some e /\ type e = INVALID_URL)
  /\ (trim url <> [] -> forall u,
        new_URL B url = Ok u -> http_or_https (protocol u) ->
        ~ looks_like_blog url ->
        exists e, validateUrl B url now = Some e
                  /\ type e = VALIDATION
                  /\ details e = JObj [("url"%string, JStr url)])
  /\ (trim url <> [] -> forall u,
        new_URL B url = Ok u -> http_or_https (protocol u) ->
        looks_like_blog url ->
        validateUrl B url now = None)
  /\ (forall u,
        new_URL B (lit "https://example.com/") = Ok u ->
        protocol u = lit "https:" ->
        exists e, validateUrl B (lit "https://example.com/") now = Some e
                  /\ type e = VALIDATION
                  /\ details e = JObj [("url"%string, JStr (lit "https://example.com/"))])
  /\ (forall u,
        new_URL B (lit "https://medium.com/@x/y") = Ok u ->
        protocol u = lit "https:" ->
        validateUrl B (lit "https://medium.com/@x/y") now = None).
Proof.
  repeat apply conj.
  - intros H. rewrite (validateUrl_empty url now H). eexists. repeat split.
  - intros Hne reason H.
    rewrite (validateUrl_unparsable url now reason Hne H). eexists. repeat split.
  - intros Hne u H Hp.
    rewrite (validateUrl_scheme url now u Hne H Hp). eexists. repeat split.
  - intros Hne u H Hp Hb.
    rewrite (validateUrl_not_blog url now u Hne H Hp Hb). eexists. repeat split.
  - intros Hne u H Hp Hb. exact (validateUrl_blog url now u Hne H Hp Hb).
  - intros u H Hp.
    rewrite (validateUrl_not_blog (lit "https://example.com/") now u).
    + eexists. repeat split.
    + vm_compute. discriminate.
    + exact H.
    + right. exact Hp.
    + rewrite <- isLikelyBlog_spec. vm_compute. discriminate.
  - intros u H Hp.
    apply (validateUrl_blog (lit "https://medium.com/@x/y") now u).
    + vm_compute. discriminate.
    + exact H.
    + right. exact Hp.
    + apply isLikelyBlog_spec. vm_compute. reflexivity.
Qed.

End Validation.

Lemma validateUrl_cases_witness :
  (exists e, validateUrl scripted (lit "   ") [] = Some e
             /\ type e = VALIDATION /\ details e = JNull)
  /\ (exists e, validateUrl scripted (lit "not a url") [] = Some e
                /\ type e = INVALID_URL)
  /\ (exists e, validateUrl scripted (lit "ftp://medium.com/a") [] = Some e
                /\ type e = INVALID_URL)
  /\ (exists e, validateUrl scripted (lit "https://example.com/") [] = Some e
                /\ type e = VALIDATION
                /\ details e = JObj [("url"%string, JStr (lit "https://example.com/"))])
  /\ validateUrl scripted (lit "https://medium.com/@x/y") [] = None.
Proof.
  split; [|split; [|split; [|split]]].
  - apply (proj1 (validateUrl_cases World scripted (lit "   ") [])).
    reflexivity.
  - apply (proj1 (proj2 (validateUrl_cases World scripted (lit "not a url") []))
             ltac:(vm_compute; discriminate) (lit "Invalid URL")).
    reflexivity.
  - apply (proj1 (proj2 (proj2
             (validateUrl_cases World scripted (lit "ftp://medium.com/a") [])))
             ltac:(vm_compute; discriminate) {| protocol := lit "ftp:" |}).
    + reflexivity.
    + intros [H|H]; vm_compute in H; discriminate H.
  - apply (proj1 (proj2 (proj2 (proj2 (proj2 (proj2
             (validateUrl_cases World scripted [] []))))))
             {| protocol := lit "https:" |}); reflexivity.
  - apply (proj2 (proj2 (proj2 (proj2 (proj2 (proj2
             (validateUrl_cases World scripted [] []))))))
             {| protocol := lit "https:" |}); reflexivity.
Defined.

(** ** The error classifier of [handleSummarize] *)

Section Classifier.

(** Every kind of the table reads as a non-empty string: an object built
    by [createError] has a truthy [type]; a native error has none. *)
Lemma structured_type_truthy (e : StructuredError) :
  truthy (err_type (Structured e)) = true.
Proof. destruct e as [[] ? ? ? ?]; reflexivity. Qed.

Lemma native_type_falsy (n : NativeError) : truthy (err_type (Native n)) = false.
Proof. reflexivity. Qed.

(** The message read by [includes] is a string whenever the error has a
    name. *)
Lemma named_error_message (err : ErrorValue) (n : jsstring) :
  err_name err = JStr n -> exists m, err_message err = JStr m.
Proof. destruct err as [e|e]; [discriminate | intros _; now eexists]. Qed.

Lemma catch_abort (m now : jsstring) :
  handleSummarize_catch
    (Native {| error_name := lit "AbortError"; error_message := m |}) now
  = Structured (timeout_error now).
Proof. reflexivity. Qed.

Lemma catch_structured (e : StructuredError) (now : jsstring) :
  handleSummarize_catch (Structured e) now = Structured e.
Proof.
  unfold handleSummarize_catch. simpl strict_eq_lit.
  now rewrite structured_type_truthy.
Qed.

Lemma catch_transport (m now : jsstring) :
  occurs (lit "fetch") m ->
  handleSummarize_catch
    (Native {| error_name := lit "TypeError"; error_message := m |}) now
  = Structured (network_error m now).
Proof.
  intros H. apply includes_spec in H.
  unfold handleSummarize_catch.
  cbn [err_name err_type err_message error_name error_message strict_eq_lit
       json_includes truthy].
  rewrite (eqb_neq (lit "TypeError") (lit "AbortError")) by (vm_compute; discriminate).
  now rewrite eqb_refl, H.
Qed.

Lemma catch_other (n m now : jsstring) :
  n <> lit "AbortError" ->
  ~ (n = lit "TypeError" /\ occurs (lit "fetch") m) ->
  handleSummarize_catch (Native {| error_name := n; error_message := m |}) now
  = Structured (unknown_error m now).
Proof.
  intros Hn Hnot. unfold handleSummarize_catch.
  cbn [err_name err_type err_message error_name error_message strict_eq_lit
       json_includes truthy].
  rewrite (eqb_neq _ _ Hn).
  destruct (JS.eqb n (lit "TypeError")) eqn:E1; [|reflexivity].
  destruct (includes (lit "fetch") m) eqn:E2; [|reflexivity].
  exfalso. apply Hnot. split; [now apply eqb_spec | now apply includes_spec].
Qed.

(** C5.  The classifier gives each caught failure one structured error,
    by this precedence: a failure named [AbortError] becomes a [timeout]
    error; otherwise a failure with a truthy [type], which is what every
    structured error is, is kept unchanged; otherwise a [TypeError] whose
    message mentions [fetch] becomes a [network] error; anything else an
    [unknown] error. *)
Theorem handleSummarize_catch_precedence (err : ErrorValue) (now : jsstring) :
  (exists e, handleSummarize_catch err now = Structured e)
  /\ (err_name err = JStr (lit "AbortError") ->
      handleSummarize_catch err now = Structured (timeout_error now)
      /\ type (timeout_error now) = TIMEOUT)
  /\ (err_name err <> JStr (lit "AbortError") ->
      forall e, err = Structured e -> handleSummarize_catch err now = err)
  /\ (err_name err <> JStr (lit "AbortError") ->
      forall n, err = Native n ->
        error_name n = lit "TypeError" /\ occurs (lit "fetch") (error_message n) ->
        handleSummarize_catch err now
        = Structured (network_error (error_message n) now)
        /\ type (network_error (error_message n) now) = NETWORK)
  /\ (err_name err <> JStr (lit "AbortError") ->
      forall n, err = Native n ->
        ~ (error_name n = lit "TypeError" /\ occurs (lit "fetch") (error_message n)) ->
        handleSummarize_catch err now
        = Structured (unknown_error (error_message n) now)
        /\ type (unknown_error (error_message n) now) = UNKNOWN).
Proof.
  destruct err as [e | [n m]].
  - repeat apply conj.
    + exists e. apply catch_structured.
    + discriminate.
    + intros _ e' _. apply catch_structured.
    + intros _ n'; discriminate.
    + intros _ n'; discriminate.
  - cbn [err_name error_name].
    assert (Hname : JStr n <> JStr (lit "AbortError") -> n <> lit "AbortError")
      by (intros H ->; now apply H).
    repeat apply conj.
    + destruct (JS.eqb n (lit "AbortError")) eqn:E.
      * apply eqb_spec in E. subst n. eexists. apply catch_abort.
      * unfold handleSummarize_catch.
        cbn [err_name err_type err_message error_name error_message strict_eq_lit
             json_includes truthy].
        rewrite E. destruct (_ && _); eexists; reflexivity.
    + intros H. injection H as ->. split; [apply catch_abort | reflexivity].
    + intros _ e; discriminate.
    + intros H n' Hn' [H1 H2]. injection Hn' as <-. cbn in H1, H2. subst n.
      split; [now apply catch_transport | reflexivity].
    + intros H n' Hn' Hnot. injection Hn' as <-. cbn in Hnot.
      split; [apply catch_other; auto | reflexivity].
Qed.

End Classifier.

Lemma handleSummarize_catch_precedence_witness :
  (handleSummarize_catch
     (Native {| error_name := lit "AbortError";
                error_message := lit "The user aborted a request." |}) []
   = Structured (timeout_error []) /\ type (timeout_error []) = TIMEOUT)
  /\ handleSummarize_catch (Structured (unknown_error [] [])) []
     = Structured (unknown_error [] [])
  /\ (handleSummarize_catch (Native failed_to_fetch) []
      = Structured (network_error (lit "Failed to fetch") [])
      /\ type (network_error (lit "Failed to fetch") []) = NETWORK)
  /\ (handleSummarize_catch
        (Native {| error_name := lit "SyntaxError";
                   error_message := lit "Unexpected token < in JSON" |}) []
      = Structured (unknown_error (lit "Unexpected token < in JSON") [])
      /\ type (unknown_error (lit "Unexpected token < in JSON") []) = UNKNOWN).
Proof.
  split; [|split; [|split]].
  - apply (proj1 (proj2 (handleSummarize_catch_precedence
      (Native {| error_name := lit "AbortError";
                 error_message := lit "The user aborted a request." |}) []))).
    reflexivity.
  - apply (proj1 (proj2 (proj2 (handleSummarize_catch_precedence
      (Structured (unknown_error [] [])) [])))
      ltac:(discriminate) (unknown_error [] []) eq_refl).
  - apply (proj1 (proj2 (proj2 (proj2 (handleSummarize_catch_precedence
      (Native failed_to_fetch) []))))
      ltac:(vm_compute; discriminate) failed_to_fetch eq_refl).
    split; [reflexivity|]. exists (lit "Failed to "), []. reflexivity.
  - apply (proj2 (proj2 (proj2 (proj2 (handleSummarize_catch_precedence
      (Native {| error_name := lit "SyntaxError";
                 error_message := lit "Unexpected token < in JSON" |}) []))))
      ltac:(vm_compute; discriminate)
      {| error_name := lit "SyntaxError";
         error_message := lit "Unexpected token < in JSON" |} eq_refl).
    intros [H _]. vm_compute in H. discriminate H.
Defined.

(** ** The [recoverable] flag *)

Section Recoverable.
Variables (W : Type) (B : Browser W).

Lemma validateUrl_recoverable url now e :
  validateUrl B url now = Some e -> recoverable e = true.
Proof.
  unfold validateUrl. destruct (trim url).
  - intros H. injection H as <-. reflexivity.
  - destruct (new_URL B url) as [u|m].
    + destruct (negb (existsb _ [_; _])).
      * intros H. injection H as <-. reflexivity.
      * cbv zeta. destruct (negb _); [|discriminate].
        intros H. injection H as <-. reflexivity.
    + intros H. injection H as <-. reflexivity.
Qed.

Lemma get_throws_native v k err :
  get B v k = Throw err -> exists n, err = Native n.
Proof.
  destruct v; simpl; try discriminate; intros H; injection H as <-; eauto.
Qed.

Lemma handleApiError_recoverable response data now e :
  handleApiError B response data now = Ok e -> recoverable e = true.
Proof.
  unfold handleApiError, bind_result.
  repeat match goal with
         | |- context [if ?c then _ else _] => destruct c
         | |- context [match get B ?v ?k with _ => _ end] => destruct (get B v k)
         end;
    intros H; try discriminate H; injection H as <-; reflexivity.
Qed.

Lemma handleApiError_throws_native response data now err :
  handleApiError B response data now = Throw err -> exists n, err = Native n.
Proof.
  unfold handleApiError, bind_result.
  repeat match goal with
         | |- context [if ?c then _ else _] => destruct c
         | |- context [match get B ?v ?k with _ => _ end] =>
             let E := fresh "E" in destruct (get B v k) eqn:E
         end;
    intros H; try discriminate H; injection H as <-;
    eapply get_throws_native; eassumption.
Qed.

(** A structured error thrown by [apiCall] is recoverable. *)
Lemma apiCall_recoverable url w e w' :
  apiCall B url w = (Throw (Structured e), w') -> recoverable e = true.
Proof.
  unfold apiCall, bind, rethrow, lift.
  destruct (fetch B (trim url) w) as [[response|n] w1]; [|discriminate].
  destruct (json_body response) as [data|n]; [|discriminate].
  destruct (negb (ok response)).
  - destruct (handleApiError B response data (toISOString_now B w1)) as [e0|x] eqn:E.
    + intros H. injection H as <- _.
      exact (handleApiError_recoverable _ _ _ _ E).
    + destruct (handleApiError_throws_native _ _ _ _ E) as [n ->]. discriminate.
  - unfold bind_result, invalid_response.
    repeat match goal with
           | |- context [if ?c then _ else _] => destruct c
           | |- context [match get B ?v ?k with _ => _ end] =>
               let E := fresh "E" in destruct (get B v k) eqn:E
           end;
      intros H; try discriminate H; injection H as H _;
      first [ injection H as <-; reflexivity
            | subst e; reflexivity
            | match goal with
              | E : get B _ _ = Throw _ |- _ =>
                  destruct (get_throws_native _ _ _ E) as [n ->]; discriminate H
              end ].
Qed.

Lemma catch_recoverable err now :
  (forall e, err = Structured e -> recoverable e = true) ->
  err_recoverable (handleSummarize_catch err now) = JBool true.
Proof.
  intros H. destruct err as [e|n].
  - rewrite catch_structured. simpl. now rewrite (H e eq_refl).
  - unfold handleSummarize_catch. rewrite native_type_falsy.
    repeat match goal with
           | |- context [if ?c then _ else _] => destruct c
           end; reflexivity.
Qed.

(** Whatever [handleSummarize] leaves in the [error] cell is recoverable. *)
Lemma handleSummarize_recoverable s w v :
  error (fst (fst (handleSummarize B s w))) = Some v ->
  err_recoverable v = JBool true.
Proof.
  unfold handleSummarize.
  destruct (negb (isOnline s)).
  - simpl. intros H. injection H as <-. reflexivity.
  - destruct (validateUrl B (url s) (toISOString_now B w)) as [e|] eqn:Ev.
    + simpl. intros H. injection H as <-. simpl.
      now rewrite (validateUrl_recoverable _ _ _ Ev).
    + unfold retryWithBackoff.
      destruct (attempt_outcome_of_fn W B json ErrorValue (apiCall B (url s)) 3 1000 0 w)
        as [w0 Horigin].
      destruct (attempt B (apiCall B (url s)) 3 1000 0 w) as [[r tr] w1].
      simpl in Horigin.
      destruct r as [result|err].
      * destruct (get B result "summary") as [x|err] eqn:Eg.
        -- simpl. discriminate.
        -- simpl. intros H. injection H as <-.
           apply catch_recoverable. intros e He.
           destruct (get_throws_native _ _ _ Eg) as [n ->]. discriminate He.
      * simpl. intros H. injection H as <-.
        apply catch_recoverable. intros e ->.
        exact (apiCall_recoverable _ _ _ _ Horigin).
Qed.

(** C8.  Every structured error the component builds is recoverable:
    those of [validateUrl], of [handleApiError], those [apiCall] throws,
    those the [catch] block of [handleSummarize] builds; the one
    exception is the error [copyToClipboard] sets when the copy fails.
    Hence whatever error [handleSummarize] leaves in the state is
    recoverable, and [retryLastAction] runs the request again. *)
Theorem structured_errors_recoverable :
  (forall url now e, validateUrl B url now = Some e -> recoverable e = true)
  /\ (forall response data now e,
        handleApiError B response data now = Ok e -> recoverable e = true)
  /\ (forall url w e w',
        apiCall B url w = (Throw (Structured e), w') -> recoverable e = true)
  /\ (forall n now e,
        handleSummarize_catch (Native n) now = Structured e -> recoverable e = true)
  /\ (forall s w v,
        error (fst (fst (handleSummarize B s w))) = Some v ->
        err_recoverable v = JBool true
        /\ retryLastAction B (fst (fst (handleSummarize B s w)))
           = handleSummarize B (fst (fst (handleSummarize B s w))))
  /\ (forall text s w n w',
        writeText B text w = (Throw n, w') ->
        exists e, error (fst (copyToClipboard B text s w)) = Some (Structured e)
                  /\ type e = UNKNOWN /\ recoverable e = false)
  /\ (forall text s w w',
        writeText B text w = (Ok tt, w') ->
        error (fst (copyToClipboard B text s w)) = error s).
Proof.
  repeat apply conj.
  - exact validateUrl_recoverable.
  - exact handleApiError_recoverable.
  - exact apiCall_recoverable.
  - intros n now e H.
    pose proof (catch_recoverable (Native n) now ltac:(discriminate)) as Hr.
    rewrite H in Hr. simpl in Hr. now injection Hr.
  - intros s w v H. pose proof (handleSummarize_recoverable s w v H) as Hr.
    split; [exact Hr|].
    unfold retryLastAction. rewrite H, Hr. reflexivity.
  - intros text s w n w' H. unfold copyToClipboard. rewrite H.
    eexists. repeat split.
  - intros text s w w' H. unfold copyToClipboard. rewrite H. reflexivity.
Qed.

End Recoverable.

Lemma structured_errors_recoverable_witness :
  (exists v,
      error (fst (fst (handleSummarize rate_limited
                         (typed (lit "https://medium.com/@x/y")) (world []))))
      = Some v
      /\ err_type v = JStr (lit "rate_limit")
      /\ err_recoverable v = JBool true)
  /\ (exists e,
        error (fst (copyToClipboard scripted (lit "Five sentences.")
                      (typed (lit "https://medium.com/@x/y")) (world [])))
        = Some (Structured e)
        /\ type e = UNKNOWN /\ recoverable e = false).
Proof.
  split.
  - eexists. split; [vm_compute; reflexivity|]. split; [vm_compute; reflexivity|].
    apply (proj1 (proj2 (proj2 (proj2 (proj2
             (structured_errors_recoverable World rate_limited)))))
             (typed (lit "https://medium.com/@x/y")) (world [])).
    vm_compute. reflexivity.
  - apply (proj1 (proj2 (proj2 (proj2 (proj2 (proj2
             (structured_errors_recoverable World scripted))))))
             (lit "Five sentences.") (typed (lit "https://medium.com/@x/y")) (world [])
             {| error_name := lit "NotAllowedError";
                error_message := lit "Write permission denied." |} (world [])).
    reflexivity.
Defined.

(** ** Reset *)

(** C9 as stated fails: [resetForm] leaves [loading] alone, so a reset
    during a request does not give the initial state, and two prior states
    give two different results. *)
Lemma resetForm_counterexample :
  (forall online,
      resetForm (setLoading true (typed (lit "https://medium.com/@x/y")))
      <> initial online)
  /\ resetForm (setLoading true (typed (lit "https://medium.com/@x/y")))
     <> resetForm (typed (lit "https://medium.com/@x/y")).
Proof.
  split; [intros online|]; intros H; apply (f_equal loading) in H;
    vm_compute in H; discriminate H.
Qed.

(** C9, amended.  [resetForm] writes the initial values into [url],
    [summary], [error], [activeTab] and [retryCount], whatever they were,
    and leaves [loading], [copied] and [isOnline] as they are; a second
    reset changes nothing. *)
Theorem resetForm_resets (s : State) :
  resetForm s
  = {| url := []; loading := loading s; error := None; summary := JNull;
       copied := copied s; activeTab := english; retryCount := 0;
       isOnline := isOnline s |}
  /\ (url (resetForm s), summary (resetForm s), error (resetForm s),
      activeTab (resetForm s), retryCount (resetForm s))
     = (url (initial (isOnline s)), summary (initial (isOnline s)),
        error (initial (isOnline s)), activeTab (initial (isOnline s)),
        retryCount (initial (isOnline s)))
  /\ resetForm (resetForm s) = resetForm s.
Proof. repeat split. Qed.

(* ===================================================================== *)
(** * Further properties of the code *)
(* ===================================================================== *)

(** ** The shape of every retry run *)

Section RetryShape.
Variables (W : Type) (B : Browser W).
Variables (A E : Type).
Variable fn : M W E A.
Variables (maxRetries : nat) (delay : Z).

Lemma attempt_shape :
  forall k retryCount w,
    maxRetries - retryCount = k -> retryCount <= maxRetries ->
    exists j,
      retryCount <= j <= maxRetries
      /\ snd (fst (attempt B fn maxRetries delay retryCount w))
         = backoff j delay retryCount
      /\ (forall e, fst (fst (attempt B fn maxRetries delay retryCount w)) = Throw e ->
          j = maxRetries).
Proof.
  induction k as [|k IH]; intros rc w Hk Hle;
    rewrite (attempt_unfold W B A E fn maxRetries delay rc w);
    destruct (fn w) as [[a|e] w'].
  - exists rc. simpl. rewrite backoff_last.
    split; [lia|]. split; [reflexivity|]. intros; lia.
  - destruct (le_lt_dec maxRetries rc); [|lia].
    exists rc. simpl. rewrite backoff_last.
    split; [lia|]. split; [reflexivity|]. intros; lia.
  - exists rc. simpl. rewrite backoff_last.
    split; [lia|]. split; [reflexivity|]. discriminate.
  - destruct (le_lt_dec maxRetries rc); [lia|].
    destruct (IH (S rc) (elapse B (delay * 2 ^ Z.of_nat rc) w') ltac:(lia) ltac:(lia))
      as (j & Hj & Htr & Hthrow).
    destruct (attempt B fn maxRetries delay (S rc) _) as [[r tr] w''].
    simpl in *. exists j. split; [lia|]. split.
    + rewrite Htr, (backoff_step j delay rc) by lia. reflexivity.
    + exact Hthrow.
Qed.

Lemma invocations_backoff j from :
  from <= j -> invocations (backoff j delay from) = S (j - from).
Proof.
  intros H. remember (j - from) as k eqn:Hk. revert from H Hk.
  induction k as [|k IH]; intros from H Hk.
  - replace from with j by lia. rewrite backoff_last. reflexivity.
  - rewrite (backoff_step j delay from) by lia.
    unfold invocations in *. cbn. f_equal. apply IH; lia.
Qed.

Lemma total_wait_backoff j from :
  from <= j ->
  total_wait (backoff j delay from)
  = (delay * (2 ^ Z.of_nat j - 2 ^ Z.of_nat from))%Z.
Proof.
  intros H. remember (j - from) as k eqn:Hk. revert from H Hk.
  induction k as [|k IH]; intros from H Hk.
  - replace from with j by lia. rewrite backoff_last. simpl. lia.
  - rewrite (backoff_step j delay from) by lia. cbn [total_wait].
    rewrite (IH (S from)) by lia.
    rewrite Nat2Z.inj_succ, Z.pow_succ_r by lia. lia.
Qed.

Lemma retry_run_backoff (w : W) :
  exists j,
    j <= maxRetries
    /\ snd (fst (retryWithBackoff B fn maxRetries delay w)) = backoff j delay 0
    /\ (forall e, fst (fst (retryWithBackoff B fn maxRetries delay w)) = Throw e ->
        j = maxRetries).
Proof.
  unfold retryWithBackoff.
  destruct (attempt_shape (maxRetries - 0) 0 w eq_refl ltac:(lia))
    as (j & Hj & Htr & Hthrow).
  exists j. split; [lia|]. split; assumption.
Qed.

(** X1.  Whatever [fn] does, a run of the wrapper is a run of the
    schedule up to some attempt [j] that is at most [maxRetries]: attempts
    0 to [j] in order, attempt [i + 1] after a timer of [delay * 2^i] ms
    and nothing else; [fn] is invoked [j + 1] times; and the promise is
    rejected only when [j] is [maxRetries]. *)
Theorem retry_run_shape (w : W) :
  exists j,
    j <= maxRetries
    /\ snd (fst (retryWithBackoff B fn maxRetries delay w)) = backoff j delay 0
    /\ invocations (snd (fst (retryWithBackoff B fn maxRetries delay w))) = S j
    /\ (forall e, fst (fst (retryWithBackoff B fn maxRetries delay w)) = Throw e ->
        j = maxRetries).
Proof.
  destruct (retry_run_backoff w) as (j & Hj & Htr & Hthrow).
  exists j. split; [lia|]. split; [exact Htr|]. split; [|exact Hthrow].
  rewrite Htr, invocations_backoff by lia. lia.
Qed.

(** X2.  With a delay that is not negative, the timers of a run add up to
    at most [delay * (2^maxRetries - 1)] ms. *)
Theorem retry_total_wait (w : W) :
  (0 <= delay)%Z ->
  (0 <= total_wait (snd (fst (retryWithBackoff B fn maxRetries delay w)))
   <= delay * (2 ^ Z.of_nat maxRetries - 1))%Z.
Proof.
  intros Hd. destruct (retry_run_backoff w) as (j & Hj & Htr & _).
  rewrite Htr, total_wait_backoff by lia. simpl (Z.of_nat 0).
  assert (1 <= 2 ^ Z.of_nat j <= 2 ^ Z.of_nat maxRetries)%Z.
  { split; [pose proof (Z.pow_pos_nonneg 2 (Z.of_nat j)); lia
           | apply Z.pow_le_mono_r; lia]. }
  change (2 ^ 0)%Z with 1%Z. nia.
Qed.

End RetryShape.

Lemma retry_total_wait_witness :
  (0 <= total_wait
          (snd (fst (retryWithBackoff scripted (scripted_fetch []) 3 1000
             (world [Throw failed_to_fetch; Throw failed_to_fetch;
                     answer 200 good_summary]))))
   <= 1000 * (2 ^ Z.of_nat 3 - 1))%Z.
Proof.
  apply (retry_total_wait World scripted Response NativeError (scripted_fetch [])
           3 1000
           (world [Throw failed_to_fetch; Throw failed_to_fetch;
                   answer 200 good_summary])).
  lia.
Defined.

(** ** The request of the richer client *)

Section ApiCall.
Variables (W : Type) (B : Browser W).

Lemma get_object fields k :
  get B (JObj fields) k
  = Ok (match assoc k fields with Some x => x | None => JUndefined end).
Proof. reflexivity. Qed.

Lemma get_truthy v k x :
  get B v k = Ok x -> truthy x = true ->
  exists fields, v = JObj fields /\ assoc k fields = Some x.
Proof.
  destruct v as [ | | b | n | str | l | fs]; simpl; intros H Hx;
    try discriminate H; try (injection H as <-; discriminate Hx).
  injection H as <-. exists fs. split; [reflexivity|].
  destruct (assoc k fs); [reflexivity | discriminate Hx].
Qed.

(** The checks [apiCall] makes on the body of an ok response. *)
Lemma body_check_accepts data invalid :
  bind_result (get B data "summary") (fun s =>
    if negb (truthy s) then Throw invalid else
    bind_result (get B s "title") (fun t =>
      if negb (truthy t) then Throw invalid else
      bind_result (get B s "englishSummary") (fun e =>
        if negb (truthy e) then Throw invalid else Ok data)))
  = Ok data
  <-> accepted_body data.
Proof.
  unfold bind_result. split.
  - destruct (get B data "summary") as [s|x] eqn:Hs; [|discriminate].
    destruct (truthy s) eqn:Ts; [|discriminate]. cbn [negb].
    destruct (get B s "title") as [t|x] eqn:Ht; [|discriminate].
    destruct (truthy t) eqn:Tt; [|discriminate]. cbn [negb].
    destruct (get B s "englishSummary") as [e|x] eqn:He; [|discriminate].
    destruct (truthy e) eqn:Te; [|discriminate]. intros _.
    destruct (get_truthy _ _ _ Hs Ts) as (fs & -> & Hf).
    destruct (get_truthy _ _ _ Ht Tt) as (sfs & -> & Hsf).
    destruct (get_truthy _ _ _ He Te) as (sfs' & Heq & Hsf').
    injection Heq as <-.
    exists fs, sfs, t, e. repeat split; assumption.
  - intros (fs & sfs & t & e & -> & Hs & Ht & Tt & He & Te).
    rewrite get_object, Hs. cbn [truthy negb].
    rewrite get_object, Ht, Tt. cbn [negb].
    rewrite get_object, He, Te. reflexivity.
Qed.

Lemma apiCall_ok_iff (url : jsstring) (w w' : W) (data : json) :
  apiCall B url w = (Ok data, w')
  <-> exists response,
        fetch B (trim url) w = (Ok response, w')
        /\ ok response = true
        /\ json_body response = Ok data
        /\ accepted_body data.
Proof.
  unfold apiCall, bind, rethrow, lift. split.
  - destruct (fetch B (trim url) w) as [[response|n] w1] eqn:Hf; [|discriminate].
    destruct (json_body response) as [d|n] eqn:Hj; [|discriminate].
    destruct (ok response) eqn:Hok; cbn [negb].
    + intros H. injection H as H <-.
      assert (Hd : d = data).
      { unfold bind_result in H.
        repeat match type of H with
               | context [match ?x with _ => _ end] => destruct x; try discriminate H
               end.
        now injection H. }
      subst d. exists response. repeat split; try assumption.
      apply (body_check_accepts data
               (invalid_response data (toISOString_now B w1))). exact H.
    + destruct (handleApiError B response d (toISOString_now B w1)); discriminate.
  - intros (response & Hf & Hok & Hj & Hacc).
    rewrite Hf, Hj, Hok. cbn [negb]. f_equal.
    apply (body_check_accepts data
             (invalid_response data (toISOString_now B w'))). exact Hacc.
Qed.

(** X3.  [apiCall] resolves exactly when the response is ok (status 200
    to 299), its body parses, and the body has a truthy [summary] with a
    truthy [title] and a truthy [englishSummary]; it then resolves with the
    body as it is.  Nothing is asked of [urduSummary]. *)
Theorem apiCall_resolves (url : jsstring) (w w' : W) (data : json) :
  apiCall B url w = (Ok data, w')
  <-> exists response,
        fetch B (trim url) w = (Ok response, w')
        /\ ok response = true
        /\ json_body response = Ok data
        /\ accepted_body data.
Proof. exact (apiCall_ok_iff url w w' data). Qed.

(** X7.  A 429 answer whose body is the JSON [null] does not give a
    [rate_limit] error: reading [retryAfter] off [null] throws, [apiCall]
    is rejected with that [TypeError], which the [catch] block of
    [handleSummarize] turns into a [network] or an [unknown] error. *)
Theorem rate_limit_null_body (url : jsstring) (w w' : W) :
  fetch B (trim url) w = (Ok {| status := 429; json_body := Ok JNull |}, w') ->
  apiCall B url w
  = (Throw (Native {| error_name := lit "TypeError";
                      error_message := null_read_message B "retryAfter" |}), w')
  /\ forall now, exists e,
       handleSummarize_catch
         (Native {| error_name := lit "TypeError";
                    error_message := null_read_message B "retryAfter" |}) now
       = Structured e
       /\ (type e = NETWORK \/ type e = UNKNOWN).
Proof.
  intros Hf. split.
  - unfold apiCall, bind, rethrow, lift. rewrite Hf. reflexivity.
  - intros now. unfold handleSummarize_catch.
    cbn [err_name err_type err_message error_name error_message strict_eq_lit
         json_includes truthy].
    rewrite (eqb_neq (lit "TypeError") (lit "AbortError")) by (vm_compute; discriminate).
    rewrite eqb_refl. cbn [andb].
    destruct (includes (lit "fetch") (null_read_message B "retryAfter"));
      eexists; (split; [reflexivity|]); [left | right]; reflexivity.
Qed.

End ApiCall.

Lemma rate_limit_null_body_witness :
  apiCall scripted (lit "https://medium.com/@x/y") (world [answer 429 JNull])
  = (Throw (Native {| error_name := lit "TypeError";
                      error_message := null_read_message scripted "retryAfter" |}),
     world [])
  /\ forall now, exists e,
       handleSummarize_catch
         (Native {| error_name := lit "TypeError";
                    error_message := null_read_message scripted "retryAfter" |}) now
       = Structured e
       /\ (type e = NETWORK \/ type e = UNKNOWN).
Proof.
  apply (rate_limit_null_body World scripted (lit "https://medium.com/@x/y")
           (world [answer 429 JNull]) (world [])).
  reflexivity.
Defined.

Lemma apiCall_resolves_witness :
  apiCall scripted (lit "https://medium.com/@x/y")
    (world [answer 200
              (JObj [("summary"%string,
                      JObj [("title"%string, JStr (lit "A post"));
                            ("englishSummary"%string, JStr (lit "Five sentences."))])])])
  = (Ok (JObj [("summary"%string,
                JObj [("title"%string, JStr (lit "A post"));
                      ("englishSummary"%string, JStr (lit "Five sentences."))])]),
     world []).
Proof.
  apply (proj2 (apiCall_resolves World scripted (lit "https://medium.com/@x/y")
                  (world [answer 200
                     (JObj [("summary"%string,
                             JObj [("title"%string, JStr (lit "A post"));
                                   ("englishSummary"%string,
                                    JStr (lit "Five sentences."))])])])
                  (world []) _)).
  eexists. split; [reflexivity|]. split; [reflexivity|]. split; [reflexivity|].
  do 4 eexists. repeat split.
Defined.

(** ** [handleSummarize] of the richer client, start to end *)

Section Summarize.
Variables (W : Type) (B : Browser W).

(** X4.  Off line, or with a URL that [validateUrl] does not pass,
    [handleSummarize] only sets the error: it makes no request, sets no
    timer, leaves the world and every other state cell as they were. *)
Theorem handleSummarize_blocked (s : State) (w : W) :
  isOnline s = false \/ validateUrl B (url s) (toISOString_now B w) <> None ->
  exists e,
    handleSummarize B s w = (setError (Some (Structured e)) s, [], w)
    /\ recoverable e = true
    /\ (type e = NETWORK \/ type e = VALIDATION \/ type e = INVALID_URL).
Proof.
  intros H. unfold handleSummarize. destruct (isOnline s) eqn:Hon; cbn [negb].
  - destruct H as [H|H]; [discriminate H|].
    destruct (validateUrl B (url s) (toISOString_now B w)) as [e|] eqn:Hv;
      [|contradiction].
    exists e. split; [reflexivity|].
    split; [exact (validateUrl_recoverable W B _ _ _ Hv)|].
    unfold validateUrl in Hv.
    repeat match type of Hv with
           | context [match ?x with _ => _ end] => destruct x
           | context [if ?x then _ else _] => destruct x
           end; try discriminate Hv; injection Hv as <-; auto.
  - eexists. split; [reflexivity|]. split; [reflexivity|]. now left.
Qed.

(** X5.  The blog-pattern check is a gate: an http or https URL in which
    none of the patterns occurs is never sent to the server; the advisory
    error is set and nothing else happens. *)
Theorem handleSummarize_not_blog (s : State) (w : W) (u : URLObject) :
  isOnline s = true ->
  trim (url s) <> [] ->
  new_URL B (url s) = Ok u -> http_or_https (protocol u) ->
  ~ looks_like_blog (url s) ->
  handleSummarize B s w
  = (setError
       (Some (Structured (createError VALIDATION
          (JStr (lit "This doesn't appear to be a blog URL. Please verify the link."))
          (JObj [("url"%string, JStr (url s))]) true (toISOString_now B w)))) s,
     [], w).
Proof.
  intros Hon Hne Hu Hp Hb. unfold handleSummarize. rewrite Hon. cbn [negb].
  now rewrite (validateUrl_not_blog W B (url s) (toISOString_now B w) u Hne Hu Hp Hb).
Qed.


End Summarize.

Lemma handleSummarize_blocked_witness :
  exists e,
    handleSummarize scripted (View.setIsOnline false (typed (lit "https://medium.com/@x/y")))
      (world [answer 200 good_summary])
    = (setError (Some (Structured e))
         (View.setIsOnline false (typed (lit "https://medium.com/@x/y"))),
       [], world [answer 200 good_summary])
    /\ recoverable e = true
    /\ (type e = NETWORK \/ type e = VALIDATION \/ type e = INVALID_URL).
Proof.
  apply (handleSummarize_blocked World scripted
           (View.setIsOnline false (typed (lit "https://medium.com/@x/y")))
           (world [answer 200 good_summary])).
  left. reflexivity.
Defined.

Lemma handleSummarize_not_blog_witness :
  handleSummarize scripted (typed (lit "https://example.com/"))
    (world [answer 200 good_summary])
  = (setError
       (Some (Structured (createError VALIDATION
          (JStr (lit "This doesn't appear to be a blog URL. Please verify the link."))
          (JObj [("url"%string, JStr (lit "https://example.com/"))]) true
          (toISOString_now scripted (world [answer 200 good_summary])))))
       (typed (lit "https://example.com/")),
     [], world [answer 200 good_summary]).
Proof.
  apply (handleSummarize_not_blog World scripted (typed (lit "https://example.com/"))
           (world [answer 200 good_summary]) {| protocol := lit "https:" |}).
  - reflexivity.
  - vm_compute. discriminate.
  - reflexivity.
  - right. reflexivity.
  - intros H. apply isLikelyBlog_spec in H. vm_compute in H. discriminate H.
Defined.


(** ** The richer client against the route handler of the repository *)

Section RicherAgainstRoute.
Variables (W exn fetch_response generation : Type).
Variable page_fetch : json -> list (string * jsstring) -> M W exn fetch_response.
Variable response_text : fetch_response -> M W exn jsstring.
Variable generateContent : jsstring -> M W exn generation.
Variable generation_text : generation -> result exn jsstring.
Variable type_error : exn.
Variable B : Browser W.

Local Notation serve :=
  (Wiring.serve page_fetch response_text generateContent generation_text type_error).

Hypothesis Hroute :
  Wiring.answers_from_route page_fetch response_text generateContent
    generation_text type_error B.

(** Whatever the handler answers, [apiCall] throws a [server] error: a 500
    is mapped to one, and in a 200 the [summary] is a string, which has no
    [title].  A request that is rejected makes [apiCall] throw what it was
    rejected with. *)
Lemma apiCall_against_route url w :
  (exists n, fetch B (trim url) w = (Throw n, snd (fetch B (trim url) w))
             /\ apiCall B url w = (Throw (Native n), snd (fetch B (trim url) w)))
  \/ (exists response e,
        fetch B (trim url) w = (Ok response, snd (fetch B (trim url) w))
        /\ apiCall B url w = (Throw (Structured e), snd (fetch B (trim url) w))
        /\ type e = SERVER).
Proof.
  unfold apiCall, bind, rethrow, lift.
  destruct (fetch B (trim url) w) as [[response|n] w1] eqn:Hf; cbn [snd].
  - right. destruct (Hroute (trim url) w response w1 Hf) as (w0 & Hst & Hbody).
    rewrite Hbody. unfold ok. rewrite Hst. unfold handleApiError. rewrite Hst.
    destruct (POST_total W exn fetch_response generation
                (ret (JObj [("url"%string, JStr (trim url))]))
                page_fetch response_text generateContent generation_text type_error w0)
      as [(sm & ur & w' & _ & H) | (w' & _ & H)];
      unfold Wiring.serve; rewrite H; cbn.
    + destruct sm as [|c sm]; cbn; exists response; eexists;
        (split; [reflexivity|]); split; reflexivity.
    + exists response; eexists; (split; [reflexivity|]); split; reflexivity.
  - left. exists n. split; reflexivity.
Qed.

Lemma apiCall_against_route_fails url w :
  exists err,
    apiCall B url w = (Throw err, snd (fetch B (trim url) w))
    /\ ((exists n, err = Native n /\ fst (fetch B (trim url) w) = Throw n)
        \/ (exists e, err = Structured e /\ type e = SERVER)).
Proof.
  destruct (apiCall_against_route url w)
    as [(n & Hf & H) | (response & e & Hf & H & Hty)].
  - exists (Native n). split; [exact H|]. left. exists n. split; [reflexivity|].
    now rewrite Hf.
  - exists (Structured e). split; [exact H|]. right. now exists e.
Qed.

Lemma catch_against_route err now :
  (exists n, err = Native n) \/ (exists e, err = Structured e /\ type e = SERVER) ->
  exists e,
    handleSummarize_catch err now = Structured e
    /\ (type e = SERVER \/ type e = TIMEOUT \/ type e = NETWORK \/ type e = UNKNOWN)
    /\ ((exists e0, err = Structured e0) -> type e = SERVER).
Proof.
  intros [[n ->] | (e0 & -> & Hty)].
  - unfold handleSummarize_catch. rewrite native_type_falsy.
    repeat match goal with
           | |- context [if ?c then _ else _] => destruct c
           end;
      eexists; (split; [reflexivity|]); (split; [cbn; tauto|]);
      intros [e0 H]; discriminate H.
  - exists e0. rewrite catch_structured. split; [reflexivity|]. split; [now left|].
    intros _. exact Hty.
Qed.


End RicherAgainstRoute.

Lemma slow_route_answers_from_route latency :
  Wiring.answers_from_route
    (fun (u : json) (headers : list (string * jsstring)) =>
       ret (E := jsstring) Route.sample_page)
    (fun r => ret r)
    (fun prompt => ret (lit "[" ++ prompt ++ lit "]"))
    (fun g => Ok g) (lit "TypeError") (Wiring.slow_route latency).
Proof.
  intros u v response v'. cbn [fetch Wiring.slow_route browser].
  unfold Wiring.slow_fetch.
  destruct (30000 <? clock v + latency)%Z; [discriminate|].
  destruct (Wiring.serve _ _ _ _ _ u v) as [r v1] eqn:Hs.
  intros H. injection H as <- _. exists v. rewrite Hs. split; reflexivity.
Qed.


(** ** What is rendered after [handleSummarize] *)

Section Rendering.
Variables (W : Type) (B : Browser W).

Lemma handleApiError_not_timeout response data now e :
  handleApiError B response data now = Ok e -> type e <> TIMEOUT.
Proof.
  unfold handleApiError, bind_result.
  repeat match goal with
         | |- context [if ?c then _ else _] => destruct c
         | |- context [match get B ?v ?k with _ => _ end] => destruct (get B v k)
         end;
    intros H; try discriminate H; injection H as <-; discriminate.
Qed.

(** A structured error thrown by [apiCall] comes from [handleApiError] or
    is the invalid-response error. *)
Lemma apiCall_structured_origin url w e w' :
  apiCall B url w = (Throw (Structured e), w') ->
  (exists response data now, handleApiError B response data now = Ok e)
  \/ (exists data now, Structured e = invalid_response data now).
Proof.
  unfold apiCall, bind, rethrow, lift.
  destruct (fetch B (trim url) w) as [[response|n] w1]; [|discriminate].
  destruct (json_body response) as [data|n]; [|discriminate].
  destruct (negb (ok response)).
  - destruct (handleApiError B response data (toISOString_now B w1)) as [e0|x] eqn:E.
    + intros H. injection H as <- _. left. eauto.
    + destruct (handleApiError_throws_native W B _ _ _ _ E) as [n ->]. discriminate.
  - unfold bind_result.
    repeat match goal with
           | |- context [if ?c then _ else _] => destruct c
           | |- context [match get B ?v ?k with _ => _ end] =>
               let E := fresh "E" in destruct (get B v k) eqn:E
           end;
      intros H; try discriminate H; injection H as H _;
      first [ right; eexists; eexists; rewrite <- H; reflexivity
            | right; eexists; eexists; symmetry; exact H
            | match goal with
              | E : get B _ _ = Throw _ |- _ =>
                  destruct (get_throws_native W B _ _ _ E) as [n ->]; discriminate H
              end ].
Qed.

Lemma validateUrl_not_timeout url now e :
  validateUrl B url now = Some e -> type e <> TIMEOUT.
Proof.
  unfold validateUrl. intros Hv.
  repeat match type of Hv with
         | context [match ?x with _ => _ end] => destruct x
         | context [if ?x then _ else _] => destruct x
         end; try discriminate Hv; injection Hv as <-; discriminate.
Qed.

Lemma catch_timeout_details err now e :
  (forall e0, err = Structured e0 -> type e0 <> TIMEOUT) ->
  handleSummarize_catch err now = Structured e ->
  type e = TIMEOUT -> details e = JNull.
Proof.
  intros Hnot. destruct err as [e0|n].
  - rewrite catch_structured. intros H. injection H as <-.
    intros Ht. destruct (Hnot e0 eq_refl Ht).
  - unfold handleSummarize_catch. rewrite native_type_falsy.
    repeat match goal with
           | |- context [if ?c then _ else _] => destruct c
           end;
      intros H; injection H as <-; first [reflexivity | discriminate].
Qed.

(** X9.  The hint written for timeouts is never rendered: a [timeout]
    error that [handleSummarize] leaves in the state has null [details],
    and the hint paragraph is rendered only for truthy [details]. *)
Theorem timeout_hint_never_rendered (s : State) (w : W) (e : StructuredError) :
  error (fst (fst (handleSummarize B s w))) = Some (Structured e) ->
  type e = TIMEOUT ->
  details e = JNull /\ View.hint (Structured e) = None.
Proof.
  intros H Ht.
  assert (Hd : details e = JNull).
  { revert H. unfold handleSummarize.
    destruct (negb (isOnline s)).
    - cbn. intros H. injection H as <-. discriminate Ht.
    - destruct (validateUrl B (url s) (toISOString_now B w)) as [e0|] eqn:Ev.
      + cbn. intros H. injection H as <-.
        destruct (validateUrl_not_timeout _ _ _ Ev Ht).
      + unfold retryWithBackoff.
        destruct (attempt_outcome_of_fn W B json ErrorValue (apiCall B (url s)) 3 1000 0 w)
          as [w0 Horigin].
        destruct (attempt B (apiCall B (url s)) 3 1000 0 w) as [[r tr] w1].
        cbn [fst snd] in Horigin.
        destruct r as [result|err].
        * destruct (get B result "summary") as [x|err] eqn:Eg.
          -- cbn. discriminate.
          -- cbn. intros H. injection H as H.
             refine (catch_timeout_details err _ e _ H Ht).
             intros e0 ->. destruct (get_throws_native W B _ _ _ Eg) as [n Hn].
             discriminate Hn.
        * cbn. intros H. injection H as H.
          refine (catch_timeout_details err _ e _ H Ht).
          intros e0 ->.
          destruct (apiCall_structured_origin _ _ _ _ Horigin)
            as [(response & data & now & Hh) | (data & now & Hh)].
          -- exact (handleApiError_not_timeout _ _ _ _ Hh).
          -- injection Hh as ->. discriminate. }
  split; [exact Hd|]. unfold View.hint. cbn [View.err_details]. now rewrite Hd.
Qed.

Lemma handleSummarize_cells s w :
  cells_agree s -> cells_agree (fst (fst (handleSummarize B s w))).
Proof.
  intros [H01 Hnone]. unfold handleSummarize, cells_agree.
  destruct (negb (isOnline s)).
  - cbn. split; [exact H01 | discriminate].
  - destruct (validateUrl B (url s) (toISOString_now B w)).
    + cbn. split; [exact H01 | discriminate].
    + destruct (retryWithBackoff B (apiCall B (url s)) 3 1000 w) as [[r tr] w1].
      destruct r as [result|err].
      * destruct (get B result "summary"); cbn.
        -- split; [now left | reflexivity].
        -- split; [now right | discriminate].
      * cbn. split; [now right | discriminate].
Qed.

Lemma step_cells a s w : cells_agree s -> cells_agree (fst (View.step B a (s, w))).
Proof.
  intros H. destruct a; cbn [View.step].
  - exact H.
  - pose proof (handleSummarize_cells s w H) as H'.
    destruct (handleSummarize B s w) as [[s' tr] w']. exact H'.
  - split; [now left | reflexivity].
  - unfold copyToClipboard. destruct (writeText B text w) as [[u|err] w'].
    + exact H.
    + destruct H as [H01 _]. split; [exact H01 | discriminate].
  - exact H.
  - unfold retryLastAction. destruct (error s) as [v|]; [|exact H].
    destruct (truthy (err_recoverable v)); [|exact H].
    pose proof (handleSummarize_cells s w H) as H'.
    destruct (handleSummarize B s w) as [[s' tr] w']. exact H'.
  - exact H.
  - exact H.
Qed.

(** X10.  Whatever the user and the network do, between two actions the
    retry counter is 0 or 1 and is 0 whenever there is no error; so the
    "Retry attempt n/3" line, shown for a positive counter and no error,
    is never rendered. *)
Theorem retry_indicator_never_rendered
    (actions : list View.action) (online : bool) (w : W) :
  let s := fst (View.run B actions (initial online, w)) in
  (retryCount s = 0%Z \/ retryCount s = 1%Z)
  /\ (error s = None -> retryCount s = 0%Z)
  /\ View.retry_indicator s = false.
Proof.
  assert (Hrun : forall l sw, cells_agree (fst sw) ->
                              cells_agree (fst (View.run B l sw))).
  { induction l as [|a l IH]; intros [s0 w0] H; [exact H|].
    unfold View.run. cbn [fold_left]. apply IH. now apply step_cells. }
  cbv zeta.
  destruct (Hrun actions (initial online, w)) as [H01 Hnone].
  { split; [now left | reflexivity]. }
  split; [exact H01|]. split; [exact Hnone|].
  unfold View.retry_indicator.
  destruct (error (fst (View.run B actions (initial online, w)))).
  - apply andb_false_r.
  - rewrite (Hnone eq_refl). reflexivity.
Qed.

(** X11.  A copy that fails replaces whatever error was shown by one that
    is not recoverable and touches nothing else; [retryLastAction] then
    does nothing. *)
Theorem failed_copy_blocks_retry
    (text : jsstring) (s : State) (w w' : W) (n : NativeError) :
  writeText B text w = (Throw n, w') ->
  exists e,
    copyToClipboard B text s w = (setError (Some (Structured e)) s, w')
    /\ recoverable e = false
    /\ forall v, retryLastAction B (setError (Some (Structured e)) s) v
                 = (setError (Some (Structured e)) s, [], v).
Proof.
  intros H. unfold copyToClipboard. rewrite H. eexists.
  split; [reflexivity|]. split; [reflexivity|]. intros v. reflexivity.
Qed.

End Rendering.

Lemma timeout_hint_never_rendered_witness :
  details (timeout_error (lit "2025-07-01T12:00:00.000Z")) = JNull
  /\ View.hint (Structured (timeout_error (lit "2025-07-01T12:00:00.000Z"))) = None.
Proof.
  apply (timeout_hint_never_rendered World scripted
           (typed (lit "https://medium.com/@x/y"))
           (world [Throw {| error_name := lit "AbortError";
                            error_message := lit "The user aborted a request." |};
                   Throw {| error_name := lit "AbortError";
                            error_message := lit "The user aborted a request." |};
                   Throw {| error_name := lit "AbortError";
                            error_message := lit "The user aborted a request." |};
                   Throw {| error_name := lit "AbortError";
                            error_message := lit "The user aborted a request." |}])
           (timeout_error (lit "2025-07-01T12:00:00.000Z")));
    reflexivity.
Defined.

Lemma failed_copy_blocks_retry_witness :
  exists e,
    copyToClipboard scripted (lit "Five sentences.")
      (typed (lit "https://medium.com/@x/y")) (world [])
    = (setError (Some (Structured e)) (typed (lit "https://medium.com/@x/y")), world [])
    /\ recoverable e = false
    /\ forall v, retryLastAction scripted
                   (setError (Some (Structured e)) (typed (lit "https://medium.com/@x/y"))) v
                 = (setError (Some (Structured e)) (typed (lit "https://medium.com/@x/y")),
                    [], v).
Proof.
  apply (failed_copy_blocks_retry World scripted (lit "Five sentences.")
           (typed (lit "https://medium.com/@x/y")) (world []) (world [])
           {| error_name := lit "NotAllowedError";
              error_message := lit "Write permission denied." |}).
  reflexivity.
Defined.

Lemma retry_indicator_never_rendered_witness :
  let s := fst (View.run scripted
                  [View.Typed (lit "https://medium.com/@x/y"); View.Summarize;
                   View.Copy (lit "Five sentences."); View.TryAgain;
                   View.WentOffline; View.Summarize; View.Reset]
                  (initial true, world [answer 500 JNull; answer 200 good_summary])) in
  (retryCount s = 0%Z \/ retryCount s = 1%Z)
  /\ (error s = None -> retryCount s = 0%Z)
  /\ View.retry_indicator s = false.
Proof.
  apply (retry_indicator_never_rendered World scripted
           [View.Typed (lit "https://medium.com/@x/y"); View.Summarize;
            View.Copy (lit "Five sentences."); View.TryAgain;
            View.WentOffline; View.Summarize; View.Reset]
           true (world [answer 500 JNull; answer 200 good_summary])).
Defined.

(** ** The minimal client *)

Section MinimalClient.
Variables (W : Type) (B : Browser W).

Lemma read_total data k v k' :
  Home.read B data k = Ok v -> exists v', Home.read B data k' = Ok v'.
Proof.
  destruct data as [ | | b | n | str | l | fs]; simpl; intros H;
    try discriminate H; eauto.
Qed.


End MinimalClient.

(** ** The minimal client against the route handler *)

Section MinimalAgainstRoute.
Variables (W exn fetch_response generation : Type).
Variable page_fetch : json -> list (string * jsstring) -> M W exn fetch_response.
Variable response_text : fetch_response -> M W exn jsstring.
Variable generateContent : jsstring -> M W exn generation.
Variable generation_text : generation -> result exn jsstring.
Variable type_error : exn.
Variable B0 : Browser W.

Local Notation B :=
  (Wiring.wired page_fetch response_text generateContent generation_text type_error B0).

(** X13.  The minimal client wired to the route handler: when every step
    of the handler goes through, the page ends up showing the two
    completions and no error; when a step throws, it shows the client's own
    fixed message (not the handler's) and no result. *)
Theorem minimal_client_against_route (s : Home.State) (w : W) :
  Home.url s <> [] ->
  (forall sm ur w',
      Route.succeeds (ret (JObj [("url"%string, JStr (Home.url s))]))
        page_fetch response_text generateContent generation_text type_error
        w sm ur w' ->
      Home.handleSummarize B s w
      = ({| Home.url := Home.url s; Home.summary := JStr sm;
            Home.urduTranslation := JStr ur; Home.loading := false;
            Home.error := [] |}, w'))
  /\ ((forall sm ur w',
          ~ Route.succeeds (ret (JObj [("url"%string, JStr (Home.url s))]))
              page_fetch response_text generateContent generation_text type_error
              w sm ur w') ->
      exists w',
        Home.handleSummarize B s w
        = ({| Home.url := Home.url s; Home.summary := JStr [];
              Home.urduTranslation := JStr []; Home.loading := false;
              Home.error := Home.failed_message |}, w')).
Proof.
  intros Hne.
  assert (Hurl : negb (truthy (JStr (Home.url s))) = false).
  { destruct (Home.url s); [contradiction | reflexivity]. }
  unfold Home.handleSummarize, Home.handleSummarize_try. rewrite Hurl.
  cbn [Home.url Home.setError Home.setUrduTranslation Home.setSummary Home.setLoading
       fetch Wiring.wired].
  unfold Wiring.served_fetch, Wiring.serve.
  split.
  - intros sm ur w' Hs.
    rewrite (POST_of_succeeds W exn fetch_response generation _ _ _ _ _ _ _ _ _ _ Hs).
    reflexivity.
  - intros Hfail.
    destruct (POST_total W exn fetch_response generation
                (ret (JObj [("url"%string, JStr (Home.url s))]))
                page_fetch response_text generateContent generation_text type_error w)
      as [(sm & ur & w' & Hs & _) | (w' & _ & H)].
    + destruct (Hfail _ _ _ Hs).
    + exists w'. rewrite H. reflexivity.
Qed.

End MinimalAgainstRoute.

Lemma minimal_client_against_route_witness :
  Home.handleSummarize (Wiring.echo_route true)
    (Home.setUrl (lit "https://medium.com/@x/y") Home.initial) (world [])
  = ({| Home.url := lit "https://medium.com/@x/y";
        Home.summary :=
          JStr (lit "[Summarize this blog in 5 clear sentences:"
                ++ [NL; NL] ++ lit "Hello World]");
        Home.urduTranslation :=
          JStr (lit "[Translate the following summary into formal Urdu:"
                ++ [NL; NL]
                ++ lit "[Summarize this blog in 5 clear sentences:"
                ++ [NL; NL] ++ lit "Hello World]]");
        Home.loading := false; Home.error := [] |}, world [])
  /\ exists w',
       Home.handleSummarize (Wiring.echo_route false)
         (Home.setUrl (lit "https://medium.com/@x/y") Home.initial) (world [])
       = ({| Home.url := lit "https://medium.com/@x/y"; Home.summary := JStr [];
             Home.urduTranslation := JStr []; Home.loading := false;
             Home.error := Home.failed_message |}, w').
Proof.
  split.
  - unfold Wiring.echo_route.
    apply (proj1 (minimal_client_against_route World jsstring jsstring jsstring
             (fun (url : json) (headers : list (string * jsstring)) => ret Route.sample_page)
             (fun r => ret r)
             (fun prompt => ret (lit "[" ++ prompt ++ lit "]"))
             (fun g => Ok g) (lit "TypeError") scripted
             (Home.setUrl (lit "https://medium.com/@x/y") Home.initial) (world [])
             ltac:(vm_compute; discriminate))).
    do 10 eexists. repeat split.
  - unfold Wiring.echo_route.
    apply (proj2 (minimal_client_against_route World jsstring jsstring jsstring
             (fun (url : json) (headers : list (string * jsstring)) =>
                lift (Throw (lit "getaddrinfo ENOTFOUND")))
             (fun r => ret r)
             (fun prompt => ret (lit "[" ++ prompt ++ lit "]"))
             (fun g => Ok g) (lit "TypeError") scripted
             (Home.setUrl (lit "https://medium.com/@x/y") Home.initial) (world [])
             ltac:(vm_compute; discriminate))).
    intros sm ur w' Hs.
    apply (POST_of_succeeds World jsstring jsstring jsstring) in Hs.
    vm_compute in Hs. discriminate Hs.
Defined.


(** ** More on the text extraction *)

Section ExtractionMore.

Lemma replace_tags_id t : ~ In LT t -> replace_tags false t = t.
Proof.
  induction t as [|c r IH]; intros H; [reflexivity|].
  rewrite replace_tags_copy.
  - f_equal. apply IH. intros Hin. apply H. now right.
  - intros ->. apply H. now left.
Qed.

Lemma replace_tags_app a r :
  ~ In LT a -> replace_tags false (a ++ r) = a ++ replace_tags false r.
Proof.
  induction a as [|c a IH]; intros H; [reflexivity|].
  cbn [app]. rewrite replace_tags_copy.
  - f_equal. apply IH. intros Hin. apply H. now right.
  - intros ->. apply H. now left.
Qed.

Lemma replace_tags_unclosed b : ~ In GT b -> replace_tags true b = [].
Proof.
  induction b as [|c b IH]; intros H; [reflexivity|].
  simpl. destruct (N.eqb_spec c GT) as [->|Hc].
  - destruct H. now left.
  - apply IH. intros Hin. apply H. now right.
Qed.

Lemma no_ws_pair_tail c t : no_ws_pair (c :: t) -> no_ws_pair t.
Proof. intros H l1 a b l2 ->. exact (H (c :: l1) a b l2 eq_refl). Qed.

Lemma replace_ws_id t :
  forall b,
    (forall c, In c t -> is_ws c = true -> c = SP) ->
    no_ws_pair t ->
    (b = true -> forall c r, t = c :: r -> is_ws c = false) ->
    replace_ws b t = t.
Proof.
  induction t as [|c r IH]; intros b Hsp Hpair Hhead; [reflexivity|].
  simpl. destruct (is_ws c) eqn:Hc.
  - destruct b.
    + rewrite (Hhead eq_refl c r eq_refl) in Hc. discriminate Hc.
    + f_equal; [symmetry; exact (Hsp c (or_introl eq_refl) Hc)|].
      apply IH.
      * intros x Hx. apply Hsp. now right.
      * exact (no_ws_pair_tail c r Hpair).
      * intros _ d r' ->. pose proof (Hpair [] c d r' eq_refl) as Hp.
        rewrite Hc in Hp. exact Hp.
  - f_equal. apply IH.
    + intros x Hx. apply Hsp. now right.
    + exact (no_ws_pair_tail c r Hpair).
    + discriminate.
Qed.

Lemma trim_id t :
  (forall c r, t = c :: r -> is_ws c = false) ->
  (forall r c, t = r ++ [c] -> is_ws c = false) ->
  trim t = t.
Proof.
  intros Hhead Hlast. unfold trim.
  assert (Hs : trimStart t = t).
  { destruct t as [|c r]; [reflexivity|]. simpl.
    now rewrite (Hhead c r eq_refl). }
  rewrite Hs. unfold trimEnd.
  destruct (rev t) as [|c r] eqn:Hr.
  - apply (f_equal (@rev N)) in Hr. rewrite rev_involutive in Hr. now subst t.
  - assert (Ht : t = rev r ++ [c]).
    { apply (f_equal (@rev N)) in Hr. now rewrite rev_involutive in Hr. }
    simpl. rewrite (Hlast (rev r) c Ht). now rewrite <- Hr, rev_involutive.
Qed.

Lemma textContent_normalized html :
  ~ In LT (Route.textContent html) /\ normalized (Route.textContent html).
Proof.
  unfold Route.textContent. split.
  - intros H. apply trim_In in H. apply replace_ws_In in H.
    destruct H as [H|H]; [discriminate H|]. exact (replace_tags_no_LT _ _ H).
  - destruct (replace_ws_shape false (replace_tags false html)) as (H1 & H2 & _).
    destruct (trim_infix (replace_ws false (replace_tags false html)))
      as (l1 & l2 & Hl).
    repeat split.
    + intros c Hc. apply H1. now apply trim_In.
    + rewrite Hl in H2. eapply no_ws_pair_infix. exact H2.
    + apply trim_head.
    + intros r c. apply trimEnd_last.
Qed.

(** X14.  Extracting text from extracted text changes nothing. *)
Theorem textContent_idempotent (html : jsstring) :
  Route.textContent (Route.textContent html) = Route.textContent html.
Proof.
  destruct (textContent_normalized html) as (Hlt & Hsp & Hpair & Hhead & Hlast).
  unfold Route.textContent at 1.
  rewrite (replace_tags_id _ Hlt).
  rewrite (replace_ws_id _ false Hsp Hpair ltac:(discriminate)).
  exact (trim_id _ Hhead Hlast).
Qed.

Lemma replace_tags_length b s :
  List.length (replace_tags b s) <= List.length s.
Proof.
  revert b; induction s as [|c r IH]; intros b; simpl; [lia|].
  destruct b.
  - destruct (c =? GT)%N; [specialize (IH false) | specialize (IH true)]; lia.
  - destruct (c =? LT)%N; simpl; [specialize (IH true) | specialize (IH false)]; lia.
Qed.

Lemma replace_ws_length b s :
  List.length (replace_ws b s) <= List.length s.
Proof.
  revert b; induction s as [|c r IH]; intros b; simpl; [lia|].
  destruct (is_ws c); [destruct b|]; simpl;
    [specialize (IH true) | specialize (IH true) | specialize (IH false)]; lia.
Qed.

Lemma trim_length s : List.length (trim s) <= List.length s.
Proof.
  destruct (trim_infix s) as (l1 & l2 & H).
  apply (f_equal (@List.length N)) in H. rewrite !length_app in H. lia.
Qed.

(** X15.  The extracted text is never longer than the page, and the
    summary prompt holds the 43 code units of its instruction and at most
    12,000 code units of text, however long the page is. *)
Theorem prompt_length_bound (html : jsstring) :
  List.length (Route.textContent html) <= List.length html
  /\ N.of_nat (List.length (Route.promptSummary (Route.textContent html)))
     = (43 + N.min 12000 (N.of_nat (List.length (Route.textContent html))))%N
  /\ (N.of_nat (List.length (Route.promptSummary (Route.textContent html))) <= 12043)%N.
Proof.
  assert (Hlen : N.of_nat (List.length (Route.promptSummary (Route.textContent html)))
                 = (43 + N.min 12000
                           (N.of_nat (List.length (Route.textContent html))))%N).
  { unfold Route.promptSummary, slice0. rewrite !length_app, length_firstn.
    change (List.length (lit "Summarize this blog in 5 clear sentences:")) with 41.
    change (List.length [NL; NL]) with 2. lia. }
  split; [|split].
  - unfold Route.textContent.
    pose proof (trim_length (replace_ws false (replace_tags false html))).
    pose proof (replace_ws_length false (replace_tags false html)).
    pose proof (replace_tags_length false html). lia.
  - exact Hlen.
  - rewrite Hlen. lia.
Qed.

Lemma fields_snoc a c : is_ws c = true -> fields (a ++ [c]) = fields a ++ [[]].
Proof.
  intros Hc. induction a as [|x a IH]; simpl.
  - now rewrite Hc.
  - rewrite IH. destruct (is_ws x); [reflexivity|].
    destruct (fields_cons a) as (w & ws & Hf). now rewrite Hf.
Qed.

Lemma words_snoc a c : is_ws c = true -> words (a ++ [c]) = words a.
Proof.
  intros Hc. unfold words. rewrite (fields_snoc a c Hc), filter_app. simpl.
  apply app_nil_r.
Qed.

(** X16.  A [<] that is never closed takes the rest of the page with it:
    when no [>] follows, everything from that [<] on is dropped. *)
Theorem unclosed_tag_drops_rest (a b : jsstring) :
  ~ In LT a -> ~ In GT b ->
  Route.textContent (a ++ LT :: b) = Route.textContent a.
Proof.
  intros Ha Hb. unfold Route.textContent.
  rewrite (replace_tags_app a (LT :: b) Ha), replace_tags_match.
  rewrite <- replace_tags_after_tag, (replace_tags_unclosed b Hb).
  rewrite (replace_tags_id a Ha), !trim_replace_ws.
  now rewrite (words_snoc a SP is_ws_SP).
Qed.

End ExtractionMore.

Lemma unclosed_tag_drops_rest_witness :
  Route.textContent (lit "if a " ++ LT :: lit " b then the rest of the article")
  = Route.textContent (lit "if a ").
Proof.
  apply (unclosed_tag_drops_rest (lit "if a ") (lit " b then the rest of the article"));
    intros H; vm_compute in H; intuition discriminate.
Defined.

Section ExtractionElements.

Lemma after_tag_app n r : ~ In GT n -> after_tag (n ++ GT :: r) = r.
Proof.
  induction n as [|c n IH]; intros H; simpl.
  - reflexivity.
  - destruct (N.eqb_spec c GT) as [->|Hc].
    + destruct H. now left.
    + apply IH. intros Hin. apply H. now right.
Qed.

(** X19.  Only the tags go: text inside an element, whatever the
    element ([script] and [style] included), stays in the extracted text. *)
Theorem element_text_is_kept (name closing t : jsstring) :
  ~ In GT name -> ~ In GT closing -> ~ In LT t ->
  Route.textContent (LT :: name ++ GT :: t ++ LT :: closing ++ [GT])
  = Route.textContent t.
Proof.
  intros Hn Hc Ht. unfold Route.textContent.
  rewrite replace_tags_match, (after_tag_app name _ Hn).
  rewrite (replace_tags_app t _ Ht), replace_tags_match.
  rewrite (after_tag_app closing [] Hc). cbn [replace_tags].
  rewrite (replace_tags_id t Ht), !trim_replace_ws.
  rewrite (words_ws SP (t ++ [SP]) is_ws_SP).
  now rewrite (words_snoc t SP is_ws_SP).
Qed.

End ExtractionElements.

Lemma element_text_is_kept_witness :
  Route.textContent (LT :: lit "script" ++ GT :: lit "var a = 1;"
                        ++ LT :: lit "/script" ++ [GT])
  = Route.textContent (lit "var a = 1;").
Proof.
  apply (element_text_is_kept (lit "script") (lit "/script") (lit "var a = 1;"));
    intros H; vm_compute in H; intuition discriminate.
Defined.

(** ** Where the handler stops, and when [handleApiError] throws *)

Section HandlerStops.
Variables (W exn fetch_response generation : Type).
Variable req_json : M W exn json.
Variable fetch : json -> list (string * jsstring) -> M W exn fetch_response.
Variable response_text : fetch_response -> M W exn jsstring.
Variable generateContent : jsstring -> M W exn generation.
Variable generation_text : generation -> result exn jsstring.
Variable type_error : exn.

Local Notation POST :=
  (Route.POST req_json fetch response_text generateContent generation_text type_error).

(** X17.  The handler stops at the first step that throws and answers
    from the world that step left: when the page fetch fails no completion
    is requested, and when the summary request fails no translation is
    requested. *)
Theorem POST_stops_at_first_failure (url : json) (w0 w1 : W) :
  req_json w0 = (Ok (JObj [("url"%string, url)]), w1) ->
  (forall e w2,
      fetch url Route.user_agent w1 = (Throw e, w2) ->
      POST w0 = ({| Route.status := 500;
                    Route.body := JObj [("error"%string, JStr Route.error_message)] |},
                 w2))
  /\ (forall response w2 html w3 e w4,
        fetch url Route.user_agent w1 = (Ok response, w2) ->
        response_text response w2 = (Ok html, w3) ->
        generateContent (Route.promptSummary (Route.textContent html)) w3
        = (Throw e, w4) ->
        POST w0 = ({| Route.status := 500;
                      Route.body := JObj [("error"%string, JStr Route.error_message)] |},
                   w4)).
Proof.
  intros Hreq. split.
  - intros e w2 Hf. unfold Route.POST, Route.POST_try, bind, lift.
    rewrite Hreq.
    change (Route.destructure_url type_error (JObj [("url"%string, url)]))
      with (@Ok exn json url).
    cbv beta iota. now rewrite Hf.
  - intros response w2 html w3 e w4 Hf Ht Hg.
    unfold Route.POST, Route.POST_try, bind, lift.
    rewrite Hreq.
    change (Route.destructure_url type_error (JObj [("url"%string, url)]))
      with (@Ok exn json url).
    cbv beta iota. now rewrite Hf, Ht, Hg.
Qed.

End HandlerStops.

(** With no quota the one completion call that is made is the summary
    request. *)
Lemma POST_stops_at_first_failure_witness :
  Route.sample_POST 0 0%nat
  = ({| Route.status := 500;
        Route.body := JObj [("error"%string, JStr Route.error_message)] |}, 1%nat).
Proof.
  unfold Route.sample_POST.
  apply (proj2 (POST_stops_at_first_failure nat jsstring jsstring jsstring
                  Route.sample_request Route.sample_fetch (fun r => ret r)
                  (Route.sample_generate 0) (fun g => Ok g) (lit "TypeError")
                  (JStr (lit "https://medium.com/@x/y")) 0%nat 0%nat eq_refl)
           Route.sample_page 0%nat Route.sample_page 0%nat
           (lit "429 Too Many Requests") 1%nat);
    reflexivity.
Defined.

Section ApiErrors.
Variables (W : Type) (B : Browser W).

(** X18.  [handleApiError] throws exactly when the body is null (or
    undefined) and the status is none of 404, 500 and 503, the statuses for
    which it does not read the body; otherwise it returns an error that is
    recoverable and records the status first in its [details]. *)
Theorem handleApiError_throws_iff (response : Response) (data : json) (now : jsstring) :
  ((exists x, handleApiError B response data now = Throw x)
   <-> (data = JNull \/ data = JUndefined)
       /\ status response <> 404%Z /\ status response <> 500%Z
       /\ status response <> 503%Z)
  /\ (forall e, handleApiError B response data now = Ok e ->
        recoverable e = true
        /\ exists rest,
            details e = JObj (("status"%string, JNum (status response)) :: rest)).
Proof.
  unfold handleApiError, bind_result. split; [split|].
  - intros [x H].
    destruct (Z.eqb_spec (status response) 400);
      [|destruct (Z.eqb_spec (status response) 404); [discriminate H|];
        destruct (Z.eqb_spec (status response) 429);
        [|destruct (Z.eqb_spec (status response) 500); [discriminate H|];
          destruct (Z.eqb_spec (status response) 503); [discriminate H|]]];
      (split; [|lia]);
      destruct data as [ | | b | n' | str | l | fs]; try discriminate H; auto.
  - intros [Hd (H404 & H500 & H503)].
    destruct (Z.eqb_spec (status response) 400);
      [|destruct (Z.eqb_spec (status response) 404); [contradiction|];
        destruct (Z.eqb_spec (status response) 429);
        [|destruct (Z.eqb_spec (status response) 500); [contradiction|];
          destruct (Z.eqb_spec (status response) 503); [contradiction|]]];
      destruct Hd as [-> | ->]; eexists; reflexivity.
  - intros e.
    repeat match goal with
           | |- context [if ?c then _ else _] => destruct c
           | |- context [match get B ?v ?k with _ => _ end] => destruct (get B v k)
           end;
      intros H; try discriminate H; injection H as <-;
      (split; [reflexivity | eexists; reflexivity]).
Qed.

End ApiErrors.

Lemma handleApiError_throws_iff_witness :
  (exists x,
      handleApiError scripted {| status := 400; json_body := Ok JNull |} JNull [] = Throw x)
  /\ (recoverable
        (createError CONTENT_NOT_FOUND
           (JStr (lit "Blog post not found or unable to access content."))
           (JObj [("status"%string, JNum 404)]) true []) = true
      /\ exists rest,
          details
            (createError CONTENT_NOT_FOUND
               (JStr (lit "Blog post not found or unable to access content."))
               (JObj [("status"%string, JNum 404)]) true [])
          = JObj (("status"%string, JNum 404) :: rest)).
Proof.
  split.
  - apply (proj2 (proj1 (handleApiError_throws_iff World scripted
                           {| status := 400; json_body := Ok JNull |} JNull []))).
    split; [now left|]. cbn. repeat split; discriminate.
  - apply (proj2 (handleApiError_throws_iff World scripted
                    {| status := 404; json_body := Ok JNull |} JNull [])).
    reflexivity.
Defined.

Lemma retry_run_shape_witness :
  exists j,
    j <= 3
    /\ snd (fst (retryWithBackoff scripted (scripted_fetch []) 3 1000
                  (world [Throw failed_to_fetch; answer 200 good_summary])))
       = backoff j 1000 0
    /\ invocations
         (snd (fst (retryWithBackoff scripted (scripted_fetch []) 3 1000
                      (world [Throw failed_to_fetch; answer 200 good_summary]))))
       = S j
    /\ (forall e,
          fst (fst (retryWithBackoff scripted (scripted_fetch []) 3 1000
                      (world [Throw failed_to_fetch; answer 200 good_summary])))
          = Throw e -> j = 3).
Proof.
  apply (retry_run_shape World scripted Response NativeError (scripted_fetch [])
           3 1000 (world [Throw failed_to_fetch; answer 200 good_summary])).
Defined.

(** ** A page longer than the prompt takes *)

Section LongPage.

Lemma textContent_plain t :
  (forall c, In c t -> is_ws c = false) -> ~ In LT t -> Route.textContent t = t.
Proof.
  intros Hws Hlt. unfold Route.textContent. rewrite (replace_tags_id t Hlt).
  rewrite (replace_ws_id t false).
  - apply trim_id.
    + intros c r ->. apply Hws. now left.
    + intros r c ->. apply Hws. apply in_or_app. right. now left.
  - intros c Hc Hw. rewrite (Hws c Hc) in Hw. discriminate Hw.
  - intros l1 a b l2 ->. rewrite (Hws a); [reflexivity|].
    apply in_or_app. right. now left.
  - discriminate.
Qed.

Lemma textContent_in_element (name closing t : jsstring) :
  ~ In GT name -> ~ In GT closing -> ~ In LT t ->
  Route.textContent (LT :: name ++ GT :: t ++ LT :: closing ++ [GT])
  = Route.textContent t.
Proof.
  intros Hn Hc Ht. unfold Route.textContent.
  rewrite replace_tags_match, (after_tag_app name _ Hn).
  rewrite (replace_tags_app t _ Ht), replace_tags_match.
  rewrite (after_tag_app closing [] Hc). cbn [replace_tags].
  rewrite (replace_tags_id t Ht), !trim_replace_ws.
  rewrite (words_ws SP (t ++ [SP]) is_ws_SP).
  now rewrite (words_snoc t SP is_ws_SP).
Qed.

Lemma textContent_long_page : Route.textContent long_page = long_text.
Proof.
  assert (Ha : forall c, In c long_text -> c = 97%N).
  { intros c Hc. exact (repeat_spec _ _ _ Hc). }
  change long_page
    with (LT :: lit "p" ++ GT :: long_text ++ LT :: lit "/p" ++ [GT]).
  rewrite textContent_in_element.
  - apply textContent_plain.
    + intros c Hc. now rewrite (Ha c Hc).
    + intros Hc. discriminate (Ha _ Hc).
  - intros H. vm_compute in H. intuition discriminate.
  - intros H. vm_compute in H. intuition discriminate.
  - intros Hc. discriminate (Ha _ Hc).
Qed.

Lemma long_text_split :
  long_text = repeat 97%N (N.to_nat 12000) ++ repeat 97%N (N.to_nat 1000).
Proof.
  unfold long_text. rewrite <- repeat_app. f_equal; lia.
Qed.

End LongPage.

(** The page holds 13,000 code units of text: the prompt takes the first
    12,000 of them. *)
Lemma POST_success_witness :
  long_POST 0%nat
  = ({| Route.status := 200;
        Route.body :=
          JObj [("summary"%string,
                 JStr (lit "["
                       ++ (lit "Summarize this blog in 5 clear sentences:"
                           ++ [NL; NL] ++ repeat 97%N (N.to_nat 12000))
                       ++ lit "]"));
                ("urduTranslation"%string,
                 JStr (lit "["
                       ++ (lit "Translate the following summary into formal Urdu:"
                           ++ [NL; NL]
                           ++ lit "["
                           ++ (lit "Summarize this blog in 5 clear sentences:"
                               ++ [NL; NL] ++ repeat 97%N (N.to_nat 12000))
                           ++ lit "]")
                       ++ lit "]"))] |},
     2%nat).
Proof.
  unfold long_POST.
  apply (@POST_success nat jsstring jsstring jsstring Route.sample_request
           (fun (url : json) (headers : list (string * jsstring)) =>
              ret (E := jsstring) long_page)
           (fun r => ret r) (Route.sample_generate 2)
           (fun g => Ok g) (lit "TypeError")
           (JStr (lit "https://medium.com/@x/y")) long_page long_page
           (repeat 97%N (N.to_nat 12000)) (repeat 97%N (N.to_nat 1000))
           (lit "["
            ++ (lit "Summarize this blog in 5 clear sentences:"
                ++ [NL; NL] ++ repeat 97%N (N.to_nat 12000))
            ++ lit "]")
           (lit "["
            ++ (lit "Translate the following summary into formal Urdu:"
                ++ [NL; NL]
                ++ lit "["
                ++ (lit "Summarize this blog in 5 clear sentences:"
                    ++ [NL; NL] ++ repeat 97%N (N.to_nat 12000))
                ++ lit "]")
            ++ lit "]")
           (lit "["
            ++ (lit "Summarize this blog in 5 clear sentences:"
                ++ [NL; NL] ++ repeat 97%N (N.to_nat 12000))
            ++ lit "]")
           (lit "["
            ++ (lit "Translate the following summary into formal Urdu:"
                ++ [NL; NL]
                ++ lit "["
                ++ (lit "Summarize this blog in 5 clear sentences:"
                    ++ [NL; NL] ++ repeat 97%N (N.to_nat 12000))
                ++ lit "]")
            ++ lit "]")
           0%nat 0%nat 0%nat 0%nat 1%nat 2%nat).
  - reflexivity.
  - reflexivity.
  - reflexivity.
  - rewrite textContent_long_page. exact long_text_split.
  - rewrite textContent_long_page. unfold long_text. rewrite !repeat_length. lia.
  - reflexivity.
  - reflexivity.
  - reflexivity.
  - reflexivity.
Defined.
